(** * Broker bootstrap (pkg/broker/ensure.go): a shallow embedding

    The Go code drives an external control plane through a Kubernetes client.
    Every call it issues is modelled as a request served by an abstract
    control plane that owns a world state; the calls and their answers are
    recorded, in order, in a log.  Go's [error] interface is an inductive
    type, a nil error is [None]. *)

From Stdlib Require Import List String ZArith QArith Bool Lia.
Import ListNotations.

Close Scope Q_scope.
Open Scope string_scope.
Open Scope list_scope.

(** ** Go errors *)

(** metav1.StatusReason, the reasons the code and its callers tell apart. *)
Inductive StatusReason : Type :=
| StatusReasonUnknown
| StatusReasonAlreadyExists
| StatusReasonNotFound
| StatusReasonForbidden.

(** The error values that reach this package: an API status error, a plain
    message ([errors.New], [fmt.Errorf]), the sentinel [wait.ErrWaitTimeout],
    and a [github.com/pkg/errors] wrapper, which keeps its cause. *)
Inductive error : Type :=
| StatusError (reason : StatusReason) (message : string)
| errorString (message : string)
| ErrWaitTimeout
| withMessage (cause : error) (message : string).

(** [errors.Wrap(err, message)]: nil on a nil error. *)
Definition Wrap (err : option error) (message : string) : option error :=
  match err with
  | None => None
  | Some e => Some (withMessage e message)
  end.

(** [err != nil]. *)
Definition nonNil (err : option error) : bool :=
  match err with
  | None => false
  | Some _ => true
  end.

(** [apierrors.ReasonForError]: the reason of the first API status found
    along the chain of causes ([errors.As]). *)
Fixpoint ReasonForError (err : error) : StatusReason :=
  match err with
  | StatusError reason _ => reason
  | withMessage cause _ => ReasonForError cause
  | errorString _ | ErrWaitTimeout => StatusReasonUnknown
  end.

(** [apierrors.IsAlreadyExists(err)]; false on a nil error. *)
Definition IsAlreadyExists (err : option error) : bool :=
  match err with
  | None => false
  | Some e =>
      match ReasonForError e with
      | StatusReasonAlreadyExists => true
      | _ => false
      end
  end.

(** [goerrors.Is(err, wait.ErrWaitTimeout)]: the sentinel is compared by
    identity along the chain of causes. *)
Fixpoint Is_chain (e : error) : bool :=
  match e with
  | ErrWaitTimeout => true
  | withMessage cause _ => Is_chain cause
  | StatusError _ _ | errorString _ => false
  end.

Definition Is_ErrWaitTimeout (err : option error) : bool :=
  match err with
  | None => false
  | Some e => Is_chain e
  end.

(** ** Requests, answers and the log *)

(** v1.Secret, as far as this package looks at it: never. *)
Record Secret : Type := mkSecret {
  secretNamespace : string;
  secretName : string
}.

(** The two role templates of the package, [NewBrokerClusterRole()] and
    [NewBrokerAdminRole()]. *)
Inductive RoleTemplate : Type :=
| NewBrokerClusterRole
| NewBrokerAdminRole.

(** What the code asks of its collaborators, with the desired state each
    request carries. *)
Inductive Request : Type :=
| GatewayEnsure
| LighthouseEnsure
| NamespaceCreate (name : string)
| ServiceAccountCreate (namespace name : string)
| RoleBindingCreate (namespace serviceAccount role : string)
| CreateOrUpdateRole (namespace : string) (role : RoleTemplate).

Inductive Event : Type :=
| Called (rq : Request) (err : option error)
| Looked (namespace serviceAccount : string)
         (secret : option Secret) (err : option error)
| Slept (d : Z).

(** The control plane and the process environment: how a request is answered
    and how the world moves on.  [GetClientTokenSecret] is rbac's credential
    lookup, [Float64] is [rand.Float64], [Sleep] lets the world evolve while
    the caller sleeps (credentials appear asynchronously). *)
Record ControlPlane (W : Type) : Type := {
  serve : Request -> W -> option error * W;
  GetClientTokenSecret :
    string -> string -> W -> (option Secret * option error) * W;
  Float64 : W -> Q * W;
  Sleep : Z -> W -> W
}.
Arguments serve {W}.
Arguments GetClientTokenSecret {W}.
Arguments Float64 {W}.
Arguments Sleep {W}.

Record State (W : Type) : Type := mkState {
  world : W;
  log : list Event
}.
Arguments mkState {W}.
Arguments world {W}.
Arguments log {W}.

(** ** A state monad over the world and the log *)

Definition M (W A : Type) : Type := State W -> A * State W.

Definition ret {W A} (a : A) : M W A := fun st => (a, st).

Definition bind {W A B} (m : M W A) (k : A -> M W B) : M W B :=
  fun st => let (a, st') := m st in k a st'.

Declare Scope go_scope.
Delimit Scope go_scope with go.
Notation "x <- m ;; k" := (bind m (fun x => k))
  (at level 61, m at next level, right associativity) : go_scope.
Notation "' p <- m ;; k" := (bind m (fun x => let p := x in k))
  (at level 61, p pattern, m at next level, right associativity) : go_scope.
Open Scope go_scope.

(** The names the package takes from elsewhere in the repository:
    [constants.SubmarinerBrokerAdminSA], the package's own role and account
    names, and the component tags of [internal/component]. *)
Class BrokerConstants : Type := {
  SubmarinerBrokerAdminSA : string;
  submarinerBrokerClusterDefaultSA : string;
  submarinerBrokerClusterRole : string;
  submarinerBrokerAdminRole : string;
  submarinerBrokerClusterSAPrefix : string;
  Connectivity : string;
  ServiceDiscovery : string;
  Globalnet : string
}.

(** ** k8s.io/apimachinery/pkg/util/wait *)

Module wait.

Record Backoff : Type := mkBackoff {
  Duration : Z;   (* time.Duration, nanoseconds *)
  Factor : Q;
  Jitter : Q;
  Steps : Z;
  Cap : Z
}.

(** Conversion of a float to [time.Duration] truncates toward zero.  The
    float64 products of the source are taken as exact rationals: rounding
    can move a truncated product by a nanosecond at most. *)
Definition truncate (q : Q) : Z := Z.quot (Qnum q) (Zpos (Qden q)).

Definition Qpositive (q : Q) : bool := negb (Qle_bool q 0).

Section Wait.
Context {W : Type} (cp : ControlPlane W).

Definition randFloat64 : M W Q :=
  fun st => let (r, w) := Float64 cp (world st) in
            (r, mkState w (log st)).

Definition timeSleep (d : Z) : M W unit :=
  fun st => (tt, mkState (Sleep cp d (world st)) (log st ++ [Slept d])).

(** [wait.Jitter]: the duration plus a random share of it, at most
    [maxFactor] times the duration. *)
Definition JitterDuration (duration : Z) (maxFactor : Q) : M W Z :=
  let maxFactor := if Qle_bool maxFactor 0 then 1%Q else maxFactor in
  r <- randFloat64 ;;
  ret (duration + truncate (r * maxFactor * inject_Z duration))%Z.

(** [Backoff.Step]: the next sleep, and the backoff advanced. *)
Definition Step (b : Backoff) : M W (Z * Backoff) :=
  if (Steps b <? 1)%Z then
    if Qpositive (Jitter b) then
      d <- JitterDuration (Duration b) (Jitter b) ;; ret (d, b)
    else ret (Duration b, b)
  else
    let steps := (Steps b - 1)%Z in
    let duration := Duration b in
    let b' :=
      if Qeq_bool (Factor b) 0 then
        mkBackoff (Duration b) (Factor b) (Jitter b) steps (Cap b)
      else
        let next := truncate (inject_Z (Duration b) * Factor b) in
        if ((Cap b >? 0) && (next >? Cap b))%Z%bool then
          mkBackoff (Cap b) (Factor b) (Jitter b) 0 (Cap b)
        else
          mkBackoff next (Factor b) (Jitter b) steps (Cap b) in
    if Qpositive (Jitter b) then
      d <- JitterDuration duration (Jitter b) ;; ret (d, b')
    else ret (duration, b').

(** The loop of [wait.ExponentialBackoff].  The condition is a closure;
    the variables it captures are the local state [L], threaded through
    the attempts.  [Steps] decreases at every turn, so [fuel] at least
    [Steps] never runs out. *)
Fixpoint backoffLoop {L : Type} (fuel : nat) (b : Backoff)
    (condition : L -> M W (L * (bool * option error))) (l : L)
    : M W (L * option error) :=
  match fuel with
  | O => ret (l, Some ErrWaitTimeout)
  | S fuel' =>
      if (Steps b >? 0)%Z then
        '(l', (ok, err)) <- condition l ;;
        match err with
        | Some _ => ret (l', err)
        | None =>
            if ok then ret (l', err)
            else if (Steps b =? 1)%Z then ret (l', Some ErrWaitTimeout)
            else
              '(d, b') <- Step b ;;
              _ <- timeSleep d ;;
              backoffLoop fuel' b' condition l'
        end
      else ret (l, Some ErrWaitTimeout)
  end.

Definition ExponentialBackoff {L : Type} (backoff : Backoff)
    (condition : L -> M W (L * (bool * option error))) (l : L)
    : M W (L * option error) :=
  backoffLoop (Z.to_nat (Steps backoff)) backoff condition l.

End Wait.
End wait.

Definition Second : Z := 1000000000.

(** ** pkg/broker *)

Section Broker.
Context {W : Type} (cp : ControlPlane W) {names : BrokerConstants}.

(** A request to a collaborator: the answer is recorded in the log. *)
Definition call (rq : Request) : M W (option error) :=
  fun st => let (err, w) := serve cp rq (world st) in
            (err, mkState w (log st ++ [Called rq err])).

(** [rbac.GetClientTokenSecret(kubeClient, namespace, serviceAccount)]. *)
Definition getClientTokenSecret (namespace serviceAccount : string)
    : M W (option Secret * option error) :=
  fun st =>
    let (r, w) := GetClientTokenSecret cp namespace serviceAccount (world st) in
    (r, mkState w (log st ++ [Looked namespace serviceAccount (fst r) (snd r)])).

Definition CreateNewBrokerNamespace (namespace : string) : M W (option error) :=
  call (NamespaceCreate namespace).

Definition CreateOrUpdateClusterBrokerRole (namespace : string)
    : M W (option error) :=
  call (CreateOrUpdateRole namespace NewBrokerClusterRole).

Definition CreateOrUpdateBrokerAdminRole (namespace : string)
    : M W (option error) :=
  call (CreateOrUpdateRole namespace NewBrokerAdminRole).

Definition CreateNewBrokerRoleBinding (serviceAccount role namespace : string)
    : M W (option error) :=
  call (RoleBindingCreate namespace serviceAccount role).

Definition CreateNewBrokerSA (submarinerBrokerSA namespace : string)
    : M W (option error) :=
  call (ServiceAccountCreate namespace submarinerBrokerSA).

(** The backoff of [WaitForClientToken]: ten steps, five seconds, factor 1.2,
    jitter 1, no cap. *)
Definition tokenBackoff : wait.Backoff :=
  wait.mkBackoff (5 * Second) (12 # 10) 1 10 0.

(** The closure handed to [wait.ExponentialBackoff]; it assigns the captured
    [secret] and [lastErr] and never returns an error of its own. *)
Definition tokenCondition (namespace submarinerBrokerSA : string)
    (captured : option Secret * option error)
    : M W ((option Secret * option error) * (bool * option error)) :=
  '(secret, lastErr) <- getClientTokenSecret namespace submarinerBrokerSA ;;
  match lastErr with
  | Some _ => ret ((secret, lastErr), (false, None))
  | None => ret ((secret, lastErr), (true, None))
  end.

Definition WaitForClientToken (submarinerBrokerSA namespace : string)
    : M W (option Secret * option error) :=
  '((secret, lastErr), err) <-
    wait.ExponentialBackoff cp tokenBackoff
      (tokenCondition namespace submarinerBrokerSA) (None, None) ;;
  if Is_ErrWaitTimeout err then ret (None, lastErr)
  else ret (secret, err).

(** The loop over [componentArr] that [Ensure] runs when [crds] is set. *)
Fixpoint ensureCRDs (componentArr : list string) : M W (option error) :=
  match componentArr with
  | [] => ret None
  | c :: rest =>
      if String.eqb c Connectivity then
        err <- call GatewayEnsure ;;
        if nonNil err then
          ret (Wrap err "error setting up the connectivity requirements")
        else ensureCRDs rest
      else if String.eqb c ServiceDiscovery then
        err <- call LighthouseEnsure ;;
        if nonNil err then
          ret (Wrap err "error setting up the service discovery requirements")
        else ensureCRDs rest
      else if String.eqb c Globalnet then
        err <- call LighthouseEnsure ;;
        if nonNil err then
          ret (Wrap err "error setting up the globalnet requirements")
        else ensureCRDs rest
      else ensureCRDs rest
  end.

Definition createBrokerAdministratorRoleAndSA (namespace : string)
    : M W (option error) :=
  err <- CreateNewBrokerSA SubmarinerBrokerAdminSA namespace ;;
  if nonNil err && negb (IsAlreadyExists err) then
    ret (Wrap err "error creating the broker admin service account")
  else
  err <- CreateOrUpdateBrokerAdminRole namespace ;;
  if nonNil err then
    ret (Wrap err "error creating subctl role")
  else
  err <- CreateNewBrokerRoleBinding SubmarinerBrokerAdminSA
           submarinerBrokerAdminRole namespace ;;
  if nonNil err && negb (IsAlreadyExists err) then
    ret (Wrap err "error creating the broker rolebinding")
  else ret None.

Definition createBrokerClusterRoleAndDefaultSA (namespace : string)
    : M W (option error) :=
  err <- CreateNewBrokerSA submarinerBrokerClusterDefaultSA namespace ;;
  if nonNil err && negb (IsAlreadyExists err) then
    ret (Wrap err "error creating the default broker service account")
  else
  err <- CreateOrUpdateClusterBrokerRole namespace ;;
  if nonNil err && negb (IsAlreadyExists err) then
    ret (Wrap err "error creating broker role")
  else
  err <- CreateNewBrokerRoleBinding submarinerBrokerClusterDefaultSA
           submarinerBrokerClusterRole namespace ;;
  if nonNil err && negb (IsAlreadyExists err) then
    ret (Wrap err "error creating the broker rolebinding")
  else ret None.

Definition Ensure (componentArr : list string) (crds : bool)
    (namespace : string) : M W (option error) :=
  err <- (if crds then ensureCRDs componentArr else ret None) ;;
  if nonNil err then ret err
  else
  err <- CreateNewBrokerNamespace namespace ;;
  if nonNil err && negb (IsAlreadyExists err) then
    ret (Wrap err "error creating the broker namespace")
  else
  err <- createBrokerAdministratorRoleAndSA namespace ;;
  if nonNil err then ret err
  else
  err <- createBrokerClusterRoleAndDefaultSA namespace ;;
  if nonNil err then ret err
  else
  '(_, err) <- WaitForClientToken SubmarinerBrokerAdminSA namespace ;;
  ret err.

(** Modelled from the spec: [ClusterSAName] is called by [CreateSAForCluster]
    but its body is not in ensure.go.  The spec gives the name of a
    per-cluster identity as a pure function of the cluster identifier under
    which no two clusters collide; the model is the package's fixed prefix
    followed by the identifier. *)
Definition ClusterSAName (clusterID : string) : string :=
  (submarinerBrokerClusterSAPrefix ++ clusterID)%string.

Definition CreateSAForCluster (clusterID namespace : string)
    : M W (option Secret * option error) :=
  let saName := ClusterSAName clusterID in
  err <- CreateNewBrokerSA saName namespace ;;
  if nonNil err && negb (IsAlreadyExists err) then
    ret (None, Wrap err "error creating cluster sa")
  else
  err <- CreateNewBrokerRoleBinding saName submarinerBrokerClusterRole
           namespace ;;
  if nonNil err && negb (IsAlreadyExists err) then
    ret (None, Wrap err "error binding sa to cluster role")
  else
  '(clientToken, err) <- WaitForClientToken saName namespace ;;
  if nonNil err && negb (IsAlreadyExists err) then
    ret (None, Wrap err "error getting cluster sa token")
  else ret (clientToken, None).

End Broker.

Arguments ClusterSAName {names} clusterID.

(** ** Running the code *)

Definition start {W : Type} (w : W) : State W := mkState w [].

(** The values upstream gives the names. *)
Definition upstream : BrokerConstants := {|
  SubmarinerBrokerAdminSA := "submariner-k8s-broker-admin";
  submarinerBrokerClusterDefaultSA := "submariner-k8s-broker-client";
  submarinerBrokerClusterRole := "submariner-k8s-broker-cluster";
  submarinerBrokerAdminRole := "submariner-k8s-broker-admin";
  submarinerBrokerClusterSAPrefix := "cluster-";
  Connectivity := "connectivity";
  ServiceDiscovery := "service-discovery";
  Globalnet := "globalnet"
|}.

(** A small control plane for running the code: it remembers what was
    created, answers a second create of the same object with AlreadyExists,
    fails the requests listed in [faults], and hands out the credential of an
    account once [pending] lookups have been turned away.  Jitter draws are
    the constant [draw]. *)
Record Fake : Type := mkFake {
  created : list Request;
  faults : list (Request * error);
  pending : nat;
  lookupError : error;
  draw : Q
}.

Definition Request_eqb (a b : Request) : bool :=
  match a, b with
  | GatewayEnsure, GatewayEnsure => true
  | LighthouseEnsure, LighthouseEnsure => true
  | NamespaceCreate n, NamespaceCreate n' => String.eqb n n'
  | ServiceAccountCreate ns n, ServiceAccountCreate ns' n' =>
      String.eqb ns ns' && String.eqb n n'
  | RoleBindingCreate ns sa r, RoleBindingCreate ns' sa' r' =>
      String.eqb ns ns' && String.eqb sa sa' && String.eqb r r'
  | CreateOrUpdateRole ns NewBrokerClusterRole,
    CreateOrUpdateRole ns' NewBrokerClusterRole => String.eqb ns ns'
  | CreateOrUpdateRole ns NewBrokerAdminRole,
    CreateOrUpdateRole ns' NewBrokerAdminRole => String.eqb ns ns'
  | _, _ => false
  end.

Fixpoint faultOf (rq : Request) (l : list (Request * error)) : option error :=
  match l with
  | [] => None
  | (rq', e) :: l' => if Request_eqb rq rq' then Some e else faultOf rq l'
  end.

Definition isCreate (rq : Request) : bool :=
  match rq with
  | NamespaceCreate _ | ServiceAccountCreate _ _ | RoleBindingCreate _ _ _ =>
      true
  | _ => false
  end.

Definition fakeServe (rq : Request) (w : Fake) : option error * Fake :=
  match faultOf rq (faults w) with
  | Some e => (Some e, w)
  | None =>
      if isCreate rq && existsb (Request_eqb rq) (created w) then
        (Some (StatusError StatusReasonAlreadyExists "already exists"), w)
      else
        (None, mkFake (rq :: created w) (faults w) (pending w)
                 (lookupError w) (draw w))
  end.

Definition fakeLookup (namespace serviceAccount : string) (w : Fake)
    : (option Secret * option error) * Fake :=
  match pending w with
  | O => ((Some (mkSecret namespace (serviceAccount ++ "-token-x")), None), w)
  | S n =>
      ((None, Some (lookupError w)),
       mkFake (created w) (faults w) n (lookupError w) (draw w))
  end.

Definition fake : ControlPlane Fake := {|
  serve := fakeServe;
  GetClientTokenSecret := fakeLookup;
  Float64 := fun w => (draw w, w);
  Sleep := fun _ w => w
|}.

Definition fresh (n : nat) : Fake :=
  mkFake [] [] n (StatusError StatusReasonNotFound "not found") 0.

(** ** What a run looks like

    Each function is described by the events it appends to the log together
    with the value it returns.  The relations below list the possible runs;
    the soundness lemmas show that every run of the code is one of them. *)

(** The guard [err != nil && !apierrors.IsAlreadyExists(err)]. *)
Definition fatal (err : option error) : bool :=
  nonNil err && negb (IsAlreadyExists err).

Definition lookups (evs : list Event) : nat :=
  List.length
    (filter (fun ev => match ev with Looked _ _ _ _ => true | _ => false end)
       evs).

Definition slept (evs : list Event) : Z :=
  fold_right (fun ev acc => match ev with Slept d => d + acc | _ => acc end)%Z
    0%Z evs.

(** Runs of the token wait with [n] attempts left. *)
Inductive waits (namespace sa : string)
  : nat -> list Event -> option Secret * option error -> Prop :=
| waits_found n secret :
    waits namespace sa (S n) [Looked namespace sa secret None] (secret, None)
| waits_timeout secret e :
    waits namespace sa 1 [Looked namespace sa secret (Some e)] (None, Some e)
| waits_retry n secret e d evs r :
    waits namespace sa (S n) evs r ->
    waits namespace sa (S (S n))
      (Looked namespace sa secret (Some e) :: Slept d :: evs) r.

Section Runs.
Context {W : Type} (cp : ControlPlane W) {names : BrokerConstants}.

Inductive adminRun (namespace : string)
  : list Event -> option error -> Prop :=
| admin_sa_failed e1 :
    fatal e1 = true ->
    adminRun namespace
      [Called (ServiceAccountCreate namespace SubmarinerBrokerAdminSA) e1]
      (Wrap e1 "error creating the broker admin service account")
| admin_role_failed e1 e2 :
    fatal e1 = false -> nonNil e2 = true ->
    adminRun namespace
      [Called (ServiceAccountCreate namespace SubmarinerBrokerAdminSA) e1;
       Called (CreateOrUpdateRole namespace NewBrokerAdminRole) e2]
      (Wrap e2 "error creating subctl role")
| admin_binding_failed e1 e3 :
    fatal e1 = false -> fatal e3 = true ->
    adminRun namespace
      [Called (ServiceAccountCreate namespace SubmarinerBrokerAdminSA) e1;
       Called (CreateOrUpdateRole namespace NewBrokerAdminRole) None;
       Called (RoleBindingCreate namespace SubmarinerBrokerAdminSA
                 submarinerBrokerAdminRole) e3]
      (Wrap e3 "error creating the broker rolebinding")
| admin_done e1 e3 :
    fatal e1 = false -> fatal e3 = false ->
    adminRun namespace
      [Called (ServiceAccountCreate namespace SubmarinerBrokerAdminSA) e1;
       Called (CreateOrUpdateRole namespace NewBrokerAdminRole) None;
       Called (RoleBindingCreate namespace SubmarinerBrokerAdminSA
                 submarinerBrokerAdminRole) e3]
      None.

Inductive clusterRun (namespace : string)
  : list Event -> option error -> Prop :=
| cluster_sa_failed e1 :
    fatal e1 = true ->
    clusterRun namespace
      [Called (ServiceAccountCreate namespace
                 submarinerBrokerClusterDefaultSA) e1]
      (Wrap e1 "error creating the default broker service account")
| cluster_role_failed e1 e2 :
    fatal e1 = false -> fatal e2 = true ->
    clusterRun namespace
      [Called (ServiceAccountCreate namespace
                 submarinerBrokerClusterDefaultSA) e1;
       Called (CreateOrUpdateRole namespace NewBrokerClusterRole) e2]
      (Wrap e2 "error creating broker role")
| cluster_binding_failed e1 e2 e3 :
    fatal e1 = false -> fatal e2 = false -> fatal e3 = true ->
    clusterRun namespace
      [Called (ServiceAccountCreate namespace
                 submarinerBrokerClusterDefaultSA) e1;
       Called (CreateOrUpdateRole namespace NewBrokerClusterRole) e2;
       Called (RoleBindingCreate namespace submarinerBrokerClusterDefaultSA
                 submarinerBrokerClusterRole) e3]
      (Wrap e3 "error creating the broker rolebinding")
| cluster_done e1 e2 e3 :
    fatal e1 = false -> fatal e2 = false -> fatal e3 = false ->
    clusterRun namespace
      [Called (ServiceAccountCreate namespace
                 submarinerBrokerClusterDefaultSA) e1;
       Called (CreateOrUpdateRole namespace NewBrokerClusterRole) e2;
       Called (RoleBindingCreate namespace submarinerBrokerClusterDefaultSA
                 submarinerBrokerClusterRole) e3]
      None.

(** Runs of [Ensure] once the schema prerequisites are in place. *)
Inductive provisionRun (namespace : string)
  : list Event -> option error -> Prop :=
| provision_namespace_failed e0 :
    fatal e0 = true ->
    provisionRun namespace [Called (NamespaceCreate namespace) e0]
      (Wrap e0 "error creating the broker namespace")
| provision_admin_failed e0 evs err :
    fatal e0 = false -> adminRun namespace evs err -> nonNil err = true ->
    provisionRun namespace (Called (NamespaceCreate namespace) e0 :: evs) err
| provision_cluster_failed e0 evs evs' err :
    fatal e0 = false -> adminRun namespace evs None ->
    clusterRun namespace evs' err -> nonNil err = true ->
    provisionRun namespace
      (Called (NamespaceCreate namespace) e0 :: evs ++ evs') err
| provision_waited e0 evs evs' wevs r :
    fatal e0 = false -> adminRun namespace evs None ->
    clusterRun namespace evs' None ->
    waits namespace SubmarinerBrokerAdminSA 10 wevs r ->
    provisionRun namespace
      (Called (NamespaceCreate namespace) e0 :: evs ++ evs' ++ wevs) (snd r).

(** Runs of [CreateSAForCluster]. *)
Inductive enrolRun (clusterID namespace : string)
  : list Event -> option Secret * option error -> Prop :=
| enrol_sa_failed e1 :
    fatal e1 = true ->
    enrolRun clusterID namespace
      [Called (ServiceAccountCreate namespace (ClusterSAName clusterID)) e1]
      (None, Wrap e1 "error creating cluster sa")
| enrol_binding_failed e1 e2 :
    fatal e1 = false -> fatal e2 = true ->
    enrolRun clusterID namespace
      [Called (ServiceAccountCreate namespace (ClusterSAName clusterID)) e1;
       Called (RoleBindingCreate namespace (ClusterSAName clusterID)
                 submarinerBrokerClusterRole) e2]
      (None, Wrap e2 "error binding sa to cluster role")
| enrol_waited e1 e2 wevs r :
    fatal e1 = false -> fatal e2 = false ->
    waits namespace (ClusterSAName clusterID) 10 wevs r ->
    enrolRun clusterID namespace
      (Called (ServiceAccountCreate namespace (ClusterSAName clusterID)) e1
       :: Called (RoleBindingCreate namespace (ClusterSAName clusterID)
                    submarinerBrokerClusterRole) e2
       :: wevs)
      (if fatal (snd r) then (None, Wrap (snd r) "error getting cluster sa token")
       else (fst r, None)).

End Runs.

(** The two schema installers, [gateway.Ensure] and [lighthouse.Ensure]. *)
Definition isInstaller (rq : Request) : bool :=
  match rq with
  | GatewayEnsure | LighthouseEnsure => true
  | _ => false
  end.

(** Runs of the loop over the component tags. *)
Inductive schemaRun : list Event -> option error -> Prop :=
| schema_done : schemaRun [] None
| schema_installed rq evs err :
    isInstaller rq = true -> schemaRun evs err ->
    schemaRun (Called rq None :: evs) err
| schema_failed rq e message :
    isInstaller rq = true ->
    schemaRun [Called rq (Some e)] (Some (withMessage e message)).

(** Runs of [Ensure]. *)
Inductive ensureRun {names : BrokerConstants} (namespace : string)
  : list Event -> option error -> Prop :=
| ensure_schema_failed evs err :
    schemaRun evs err -> nonNil err = true -> ensureRun namespace evs err
| ensure_provisioned sevs pevs err :
    schemaRun sevs None -> provisionRun namespace pevs err ->
    ensureRun namespace (sevs ++ pevs) err.

(** ** Vocabulary of the statements *)

(** How the switch of [Ensure] maps a component tag to the installer it
    calls and to the message it wraps a failure in; the cases are tried in
    the order of the source. *)
Definition dispatches {names : BrokerConstants} (c : string) (rq : Request)
    (message : string) : Prop :=
  (c = Connectivity /\ rq = GatewayEnsure
   /\ message = "error setting up the connectivity requirements")
  \/ (c <> Connectivity /\ c = ServiceDiscovery /\ rq = LighthouseEnsure
      /\ message = "error setting up the service discovery requirements")
  \/ (c <> Connectivity /\ c <> ServiceDiscovery /\ c = Globalnet
      /\ rq = LighthouseEnsure
      /\ message = "error setting up the globalnet requirements").

(** Every credential lookup of a log comes after a request to create the
    service account it looks up. *)
Definition createdBeforeLookup (evs : list Event) : Prop :=
  forall pre namespace sa secret err post,
    evs = pre ++ Looked namespace sa secret err :: post ->
    exists e, In (Called (ServiceAccountCreate namespace sa) e) pre.

Definition onlyCalls (evs : list Event) : Prop :=
  forall ev, In ev evs -> exists rq e, ev = Called rq e.

(** An answer the provisioning can live with: a create of a namespace, a
    service account or a role binding answered with success or with
    AlreadyExists, any other request answered with success. *)
Definition tolerable (ev : Event) : bool :=
  match ev with
  | Called (NamespaceCreate _) err
  | Called (ServiceAccountCreate _ _) err
  | Called (RoleBindingCreate _ _ _) err => negb (fatal err)
  | Called _ err => negb (nonNil err)
  | Looked _ _ _ _ | Slept _ => true
  end.

Definition found (ev : Event) : bool :=
  match ev with
  | Looked _ _ _ None => true
  | _ => false
  end.

(** A run whose last event is a failed credential lookup: the token wait ran
    out. *)
Definition timedOut (evs : list Event) : bool :=
  match last evs (Slept 0) with
  | Looked _ _ _ (Some _) => true
  | _ => false
  end.

(** A run in which every answer was tolerable and the token wait, if it was
    reached at all, did not run out.  Nothing here says how far the run
    got. *)
Definition tolerated (evs : list Event) : bool :=
  forallb tolerable evs && negb (timedOut evs).

Definition answeredAlreadyExists (ev : Event) : bool :=
  match ev with
  | Called rq err => isCreate rq && IsAlreadyExists err
  | _ => false
  end.

(** The wait the comment in [WaitForClientToken] documents,
    sum(n=0..9, 1.2^n * 5) seconds, in nanoseconds. *)
Definition documentedWait : Q :=
  fold_right Qplus 0%Q
    (map (fun n => (inject_Z (5 * Second) * (12 # 10) ^ Z.of_nat n)%Q)
       (seq 0 10)).

(** The sum of [n] successive backoff durations starting at [d], each 1.2
    times the one before: what the sleeps add up to when no jitter is drawn. *)
Fixpoint baseSleeps (n : nat) (d : Z) : Z :=
  match n with
  | O => 0%Z
  | S n' => (d + baseSleeps n' (wait.truncate (inject_Z d * (12 # 10))%Q))%Z
  end.

(** [rand.Float64] draws from the unit interval. *)
Definition drawsInUnit {W : Type} (cp : ControlPlane W) : Prop :=
  forall w, (0 <= fst (Float64 cp w))%Q /\ (fst (Float64 cp w) <= 1)%Q.

(** A world in which the credential never shows up and every jitter draw is
    one half. *)
Definition neverReady : Fake :=
  mkFake [] [] 10 (StatusError StatusReasonNotFound "not found") (1 # 2).

(** A world whose credential lookup keeps answering AlreadyExists. *)
Definition lookupAlreadyExists : Fake :=
  mkFake [] [] 10 (StatusError StatusReasonAlreadyExists "already exists") 0.

(** A world that fails the listed requests. *)
Definition faulty (l : list (Request * error)) : Fake :=
  mkFake [] l 0 (StatusError StatusReasonNotFound "not found") 0.

(** ** Vocabulary of the further statements *)

(** The requests of a log, in the order they were issued. *)
Definition requests (evs : list Event) : list Request :=
  flat_map (fun ev => match ev with Called rq _ => [rq] | _ => [] end) evs.

Definition sleeps (evs : list Event) : nat :=
  List.length
    (filter (fun ev => match ev with Slept _ => true | _ => false end) evs).

Definition installerCalls (evs : list Event) : nat :=
  List.length
    (filter (fun ev => match ev with
                       | Called rq _ => isInstaller rq
                       | _ => false
                       end) evs).

(** The seven requests [Ensure] issues between the schema installers and the
    token wait, in the order of the source. *)
Definition provisioning {names : BrokerConstants} (namespace : string)
    : list Request :=
  [NamespaceCreate namespace;
   ServiceAccountCreate namespace SubmarinerBrokerAdminSA;
   CreateOrUpdateRole namespace NewBrokerAdminRole;
   RoleBindingCreate namespace SubmarinerBrokerAdminSA
     submarinerBrokerAdminRole;
   ServiceAccountCreate namespace submarinerBrokerClusterDefaultSA;
   CreateOrUpdateRole namespace NewBrokerClusterRole;
   RoleBindingCreate namespace submarinerBrokerClusterDefaultSA
     submarinerBrokerClusterRole].

(** The two requests of [CreateSAForCluster]. *)
Definition enrolment {names : BrokerConstants} (clusterID namespace : string)
    : list Request :=
  [ServiceAccountCreate namespace (ClusterSAName clusterID);
   RoleBindingCreate namespace (ClusterSAName clusterID)
     submarinerBrokerClusterRole].

(** The tags the switch of [Ensure] has a case for. *)
Definition recognized {names : BrokerConstants} (c : string) : bool :=
  String.eqb c Connectivity || String.eqb c ServiceDiscovery
  || String.eqb c Globalnet.

(** The small control plane with every jitter draw one half. *)
Definition steady : ControlPlane Fake := {|
  serve := fakeServe;
  GetClientTokenSecret := fakeLookup;
  Float64 := fun w => ((1 # 2)%Q, w);
  Sleep := fun _ w => w
|}.

(** The requests whose AlreadyExists answer the code lets pass: the creates
    and the create-or-update of the cluster role. *)
Definition absorbed (rq : Request) : bool :=
  match rq with
  | NamespaceCreate _ | ServiceAccountCreate _ _ | RoleBindingCreate _ _ _
  | CreateOrUpdateRole _ NewBrokerClusterRole => true
  | _ => false
  end.

Definition absorb (err : option error) : option error :=
  if IsAlreadyExists err then None else err.

(** The control plane [cp] with every AlreadyExists answer to an absorbed
    request turned into success; the world moves as under [cp]. *)
Definition lenient {W : Type} (cp : ControlPlane W) : ControlPlane W := {|
  serve := fun rq w =>
             let (err, w') := serve cp rq w in
             ((if absorbed rq then absorb err else err), w');
  GetClientTokenSecret := GetClientTokenSecret cp;
  Float64 := Float64 cp;
  Sleep := Sleep cp
|}.

(** Two computations that, started in the same world, end in the same world
    with results related by [R]; their logs may differ. *)
Definition sim {W A : Type} (R : A -> A -> Prop) (m m' : M W A) : Prop :=
  forall st st',
    world st = world st' ->
    R (fst (m st)) (fst (m' st'))
    /\ world (snd (m st)) = world (snd (m' st')).

(** ** Every run of the code is one of the runs above *)

Section Soundness.
Context {W : Type} (cp : ControlPlane W) {names : BrokerConstants}.

Lemma call_run (rq : Request) (st : State W) :
  exists err w, call cp rq st = (err, mkState w (log st ++ [Called rq err])).
Proof.
  unfold call. destruct (serve cp rq (world st)) as [err w].
  exists err, w. reflexivity.
Qed.

Lemma lookup_run (namespace sa : string) (st : State W) :
  exists secret err w,
    getClientTokenSecret cp namespace sa st
    = ((secret, err),
       mkState w (log st ++ [Looked namespace sa secret err])).
Proof.
  unfold getClientTokenSecret.
  destruct (GetClientTokenSecret cp namespace sa (world st)) as [[secret err] w].
  exists secret, err, w. reflexivity.
Qed.

Lemma Step_run (b : wait.Backoff) (st : State W) :
  (1 <= wait.Steps b)%Z -> wait.Cap b = 0%Z ->
  exists d b' w,
    wait.Step cp b st = ((d, b'), mkState w (log st))
    /\ wait.Steps b' = (wait.Steps b - 1)%Z /\ wait.Cap b' = 0%Z.
Proof.
  intros Hsteps Hcap. unfold wait.Step.
  destruct (wait.Steps b <? 1)%Z eqn:Hlt; [apply Z.ltb_lt in Hlt; lia|].
  rewrite Hcap. cbn [Z.gtb Z.compare andb].
  assert (Hb : forall next,
    exists b', (if Qeq_bool (wait.Factor b) 0
                then wait.mkBackoff (wait.Duration b) (wait.Factor b)
                       (wait.Jitter b) (wait.Steps b - 1) 0
                else wait.mkBackoff next (wait.Factor b)
                       (wait.Jitter b) (wait.Steps b - 1) 0) = b'
               /\ wait.Steps b' = (wait.Steps b - 1)%Z /\ wait.Cap b' = 0%Z).
  { intros next. destruct (Qeq_bool (wait.Factor b) 0);
      eexists; split; try reflexivity; split; reflexivity. }
  destruct (Hb (wait.truncate (inject_Z (wait.Duration b) * wait.Factor b)))
    as (b' & -> & Hs & Hc).
  destruct (wait.Qpositive (wait.Jitter b)).
  - unfold wait.JitterDuration, wait.randFloat64, bind, ret.
    destruct (Float64 cp (world st)) as [r w]. cbn.
    eexists _, b', w. split; [reflexivity | split; assumption].
  - unfold ret. destruct st as [w l]. eexists _, b', w.
    split; [reflexivity | split; assumption].
Qed.

Lemma backoffLoop_run (namespace sa : string) :
  forall (fuel n : nat) (b : wait.Backoff)
         (l : option Secret * option error) (st : State W),
    wait.Steps b = Z.of_nat (S n) -> wait.Cap b = 0%Z -> (S n <= fuel)%nat ->
    exists secret lastErr err w evs,
      wait.backoffLoop cp fuel b (tokenCondition cp namespace sa) l st
      = (((secret, lastErr), err), mkState w (log st ++ evs))
      /\ waits namespace sa (S n) evs
           (if Is_ErrWaitTimeout err then (None, lastErr) else (secret, err)).
Proof.
  induction fuel as [|fuel IH]; intros n b l st Hsteps Hcap Hfuel; [lia|].
  cbn [wait.backoffLoop].
  destruct (wait.Steps b >? 0)%Z eqn:Hpos;
    [|rewrite Z.gtb_ltb in Hpos; apply Z.ltb_ge in Hpos; lia].
  unfold bind at 1. unfold tokenCondition at 1. unfold bind at 1.
  destruct (lookup_run namespace sa st) as (secret & lastErr & w & ->).
  destruct lastErr as [e|]; unfold ret at 1; cbn beta iota.
  - destruct (wait.Steps b =? 1)%Z eqn:Hone.
    + apply Z.eqb_eq in Hone. assert (n = O) by lia. subst n.
      unfold ret. exists secret, (Some e), (Some ErrWaitTimeout), w.
      eexists. split; [reflexivity|]. cbn. constructor.
    + apply Z.eqb_neq in Hone. destruct n as [|n]; [cbn in Hsteps; lia|].
      unfold bind at 1.
      destruct (Step_run b
                  (mkState w (log st ++ [Looked namespace sa secret (Some e)])))
        as (d & b' & w' & -> & Hs' & Hc'); [lia | assumption |].
      cbn beta iota. unfold bind at 1, wait.timeSleep at 1. cbn [world log].
      destruct (IH n b' (secret, Some e)
                  (mkState (Sleep cp d w')
                     ((log st ++ [Looked namespace sa secret (Some e)])
                        ++ [Slept d])))
        as (secret' & lastErr' & err' & w'' & evs & Heq & Hw); [lia | assumption | lia |].
      rewrite Heq. cbn [log].
      exists secret', lastErr', err', w''.
      exists (Looked namespace sa secret (Some e) :: Slept d :: evs).
      split; [rewrite <- !app_assoc; reflexivity|].
      constructor. exact Hw.
  - unfold ret. exists secret, None, None, w. eexists.
    split; [reflexivity|]. cbn. constructor.
Qed.

Lemma WaitForClientToken_run (sa namespace : string) (st : State W) :
  exists r w evs,
    WaitForClientToken cp sa namespace st = (r, mkState w (log st ++ evs))
    /\ waits namespace sa 10 evs r.
Proof.
  unfold WaitForClientToken, wait.ExponentialBackoff, bind.
  destruct (backoffLoop_run namespace sa
              (Z.to_nat (wait.Steps tokenBackoff)) 9 tokenBackoff (None, None) st)
    as (secret & lastErr & err & w & evs & -> & Hw);
    [reflexivity | reflexivity | cbn; lia |].
  cbn beta iota. unfold ret.
  destruct (Is_ErrWaitTimeout err); eauto.
Qed.

Lemma fatal_guard (err : option error) :
  nonNil err && negb (IsAlreadyExists err) = fatal err.
Proof. reflexivity. Qed.

Lemma nonNil_false (err : option error) : nonNil err = false -> err = None.
Proof. destruct err; [discriminate | reflexivity]. Qed.

Lemma fatal_nonNil (err : option error) : fatal err = true -> nonNil err = true.
Proof. unfold fatal. intros H. apply andb_true_iff in H. apply H. Qed.

Ltac next_call :=
  unfold bind at 1;
  match goal with
  | |- context [call ?cp ?rq ?st] =>
      let e := fresh "e" in
      let w := fresh "w" in
      destruct (call_run rq st) as (e & w & ->)
  end;
  cbn beta iota; cbn [log world]; rewrite ?fatal_guard.

Ltac done_run :=
  unfold ret; cbn [log world]; rewrite <- ?app_assoc; do 3 eexists;
  (split; [reflexivity|]); cbn [app].

Lemma admin_sound (namespace : string) (st : State W) :
  exists err w evs,
    createBrokerAdministratorRoleAndSA cp namespace st
    = (err, mkState w (log st ++ evs))
    /\ adminRun namespace evs err.
Proof.
  unfold createBrokerAdministratorRoleAndSA, CreateNewBrokerSA,
    CreateOrUpdateBrokerAdminRole, CreateNewBrokerRoleBinding.
  next_call. destruct (fatal e) eqn:F1.
  { done_run. cbn [app]. now constructor. }
  next_call. destruct (nonNil e0) eqn:F2.
  { done_run. cbn [app]. now constructor. }
  apply nonNil_false in F2. subst e0.
  next_call. destruct (fatal e0) eqn:F3.
  { done_run. cbn [app]. now constructor. }
  done_run. cbn [app]. now constructor.
Qed.

Lemma cluster_sound (namespace : string) (st : State W) :
  exists err w evs,
    createBrokerClusterRoleAndDefaultSA cp namespace st
    = (err, mkState w (log st ++ evs))
    /\ clusterRun namespace evs err.
Proof.
  unfold createBrokerClusterRoleAndDefaultSA, CreateNewBrokerSA,
    CreateOrUpdateClusterBrokerRole, CreateNewBrokerRoleBinding.
  next_call. destruct (fatal e) eqn:F1.
  { done_run. cbn [app]. now constructor. }
  next_call. destruct (fatal e0) eqn:F2.
  { done_run. cbn [app]. now constructor. }
  next_call. destruct (fatal e1) eqn:F3.
  { done_run. cbn [app]. now constructor. }
  done_run. cbn [app]. now constructor.
Qed.

Lemma enrol_sound (clusterID namespace : string) (st : State W) :
  exists r w evs,
    CreateSAForCluster cp clusterID namespace st
    = (r, mkState w (log st ++ evs))
    /\ enrolRun clusterID namespace evs r.
Proof.
  unfold CreateSAForCluster, CreateNewBrokerSA, CreateNewBrokerRoleBinding.
  cbn zeta.
  next_call. destruct (fatal e) eqn:F1.
  { done_run. cbn [app]. now constructor. }
  next_call. destruct (fatal e0) eqn:F2.
  { done_run. cbn [app]. now constructor. }
  unfold bind at 1.
  match goal with
  | |- context [WaitForClientToken cp ?sa ?ns ?st] =>
      destruct (WaitForClientToken_run sa ns st) as (r & w1 & wevs & -> & Hw)
  end.
  destruct r as [clientToken err]. cbn beta iota. rewrite fatal_guard.
  pose proof (enrol_waited clusterID namespace e e0 wevs (clientToken, err)
                F1 F2 Hw) as Hrun.
  cbn [fst snd] in Hrun.
  destruct (fatal err); done_run; exact Hrun.
Qed.

Lemma provision_sound (namespace : string) (st : State W) :
  exists err w evs,
    Ensure cp [] true namespace st = (err, mkState w (log st ++ evs))
    /\ provisionRun namespace evs err.
Proof.
  unfold Ensure, CreateNewBrokerNamespace. cbn [ensureCRDs].
  unfold bind at 1, ret at 1. cbn [nonNil].
  next_call. destruct (fatal e) eqn:F0.
  { done_run. cbn [app]. now constructor. }
  unfold bind at 1.
  match goal with
  | |- context [createBrokerAdministratorRoleAndSA cp ?ns ?st] =>
      destruct (admin_sound ns st) as (err1 & w1 & evs1 & -> & Hadmin)
  end.
  destruct (nonNil err1) eqn:N1.
  { done_run. cbn [app]. now apply provision_admin_failed. }
  apply nonNil_false in N1. subst err1.
  unfold bind at 1.
  match goal with
  | |- context [createBrokerClusterRoleAndDefaultSA cp ?ns ?st] =>
      destruct (cluster_sound ns st) as (err2 & w2 & evs2 & -> & Hcluster)
  end.
  destruct (nonNil err2) eqn:N2.
  { done_run. cbn [app]. now apply provision_cluster_failed. }
  apply nonNil_false in N2. subst err2.
  unfold bind at 1.
  match goal with
  | |- context [WaitForClientToken cp ?sa ?ns ?st] =>
      destruct (WaitForClientToken_run sa ns st) as (r & w3 & wevs & -> & Hw)
  end.
  destruct r as [secret err]. cbn beta iota.
  done_run. cbn [app].
  exact (provision_waited namespace e evs1 evs2 wevs (secret, err)
           F0 Hadmin Hcluster Hw).
Qed.

Lemma ensureCRDs_sound (componentArr : list string) :
  forall st : State W,
  exists err w evs,
    ensureCRDs cp componentArr st = (err, mkState w (log st ++ evs))
    /\ schemaRun evs err.
Proof.
  induction componentArr as [|c rest IH]; intros st.
  - cbn. unfold ret. exists None, (world st), [].
    rewrite app_nil_r. destruct st. split; [reflexivity | constructor].
  - assert (Hinstall : forall rq message,
      isInstaller rq = true ->
      exists err w evs,
        (err <- call cp rq ;;
         if nonNil err then ret (Wrap err message)
         else ensureCRDs cp rest) st
        = (err, mkState w (log st ++ evs))
        /\ schemaRun evs err).
    { intros rq message Hrq. next_call. destruct e as [e|]; cbn [nonNil].
      - done_run. cbn [Wrap]. now constructor.
      - match goal with
        | |- context [ensureCRDs cp rest ?st'] =>
            destruct (IH st') as (err & w' & evs & -> & Hrun)
        end.
        done_run. now constructor. }
    cbn [ensureCRDs].
    destruct (String.eqb c Connectivity); [now apply Hinstall|].
    destruct (String.eqb c ServiceDiscovery); [now apply Hinstall|].
    destruct (String.eqb c Globalnet); [now apply Hinstall|].
    apply IH.
Qed.

Lemma Ensure_after_crds (componentArr : list string) (namespace : string)
    (st : State W) :
  Ensure cp componentArr true namespace st
  = (let (err, st') := ensureCRDs cp componentArr st in
     if nonNil err then (err, st') else Ensure cp [] true namespace st').
Proof.
  unfold Ensure at 1. unfold bind at 1.
  destruct (ensureCRDs cp componentArr st) as [err st'].
  destruct (nonNil err) eqn:Herr; [reflexivity|].
  unfold Ensure. unfold bind at 2. cbn [ensureCRDs]. unfold ret at 2.
  cbn [nonNil]. reflexivity.
Qed.

Lemma Ensure_no_crds (componentArr : list string) (namespace : string)
    (st : State W) :
  Ensure cp componentArr false namespace st = Ensure cp [] true namespace st.
Proof. reflexivity. Qed.

Lemma Ensure_sound (componentArr : list string) (crds : bool)
    (namespace : string) (st : State W) :
  exists err w evs,
    Ensure cp componentArr crds namespace st
    = (err, mkState w (log st ++ evs))
    /\ ensureRun namespace evs err.
Proof.
  destruct crds.
  - rewrite Ensure_after_crds.
    destruct (ensureCRDs_sound componentArr st)
      as (err & w & sevs & -> & Hschema).
    destruct (nonNil err) eqn:Herr.
    + exists err, w, sevs. split; [reflexivity|]. now constructor.
    + apply nonNil_false in Herr. subst err.
      destruct (provision_sound namespace (mkState w (log st ++ sevs)))
        as (err & w' & pevs & -> & Hprov).
      done_run. now constructor.
  - rewrite Ensure_no_crds.
    destruct (provision_sound namespace st) as (err & w & pevs & -> & Hprov).
    exists err, w, pevs. split; [reflexivity|].
    apply (ensure_provisioned namespace [] pevs err); [constructor | assumption].
Qed.

End Soundness.

(** ** Runs from an empty log *)

Section Traces.
Context {W : Type} (cp : ControlPlane W) {names : BrokerConstants}.

Lemma wait_trace (sa namespace : string) (w : W) :
  let r := WaitForClientToken cp sa namespace (start w) in
  waits namespace sa 10 (log (snd r)) (fst r).
Proof.
  destruct (WaitForClientToken_run cp sa namespace (start w))
    as (r & w' & evs & -> & Hw). exact Hw.
Qed.

Lemma admin_trace (namespace : string) (w : W) :
  let r := createBrokerAdministratorRoleAndSA cp namespace (start w) in
  adminRun namespace (log (snd r)) (fst r).
Proof.
  destruct (admin_sound cp namespace (start w)) as (r & w' & evs & -> & H).
  exact H.
Qed.

Lemma cluster_trace (namespace : string) (w : W) :
  let r := createBrokerClusterRoleAndDefaultSA cp namespace (start w) in
  clusterRun namespace (log (snd r)) (fst r).
Proof.
  destruct (cluster_sound cp namespace (start w)) as (r & w' & evs & -> & H).
  exact H.
Qed.

Lemma enrol_trace (clusterID namespace : string) (w : W) :
  let r := CreateSAForCluster cp clusterID namespace (start w) in
  enrolRun clusterID namespace (log (snd r)) (fst r).
Proof.
  destruct (enrol_sound cp clusterID namespace (start w))
    as (r & w' & evs & -> & H). exact H.
Qed.

Lemma Ensure_trace (componentArr : list string) (crds : bool)
    (namespace : string) (w : W) :
  let r := Ensure cp componentArr crds namespace (start w) in
  ensureRun namespace (log (snd r)) (fst r).
Proof.
  destruct (Ensure_sound cp componentArr crds namespace (start w))
    as (r & w' & evs & -> & H). exact H.
Qed.

End Traces.

(** ** The token wait *)

Lemma waits_found_is_last (namespace sa : string) (n : nat)
    (evs : list Event) (r : option Secret * option error) :
  waits namespace sa n evs r ->
  forall pre secret post,
    evs = pre ++ Looked namespace sa secret None :: post ->
    (lookups pre < n)%nat /\ post = [] /\ r = (secret, None).
Proof.
  induction 1 as [n s | s e | n s e d evs r Hw IH]; intros pre secret post Heq.
  - destruct pre as [|x pre]; cbn in Heq.
    + injection Heq as <- <-. unfold lookups. cbn. repeat split. lia.
    + injection Heq as _ Heq. destruct pre; discriminate.
  - destruct pre as [|x pre]; cbn in Heq; [discriminate|].
    injection Heq as _ Heq. destruct pre; discriminate.
  - destruct pre as [|x [|y pre]]; cbn in Heq; try discriminate.
    injection Heq as <- <- Heq.
    destruct (IH pre secret post Heq) as (Hk & Hpost & Hr).
    repeat split; try assumption. unfold lookups in *. cbn in *. lia.
Qed.

Lemma waits_never_found (namespace sa : string) (n : nat)
    (evs : list Event) (r : option Secret * option error) :
  waits namespace sa n evs r ->
  (forall secret, ~ In (Looked namespace sa secret None) evs) ->
  lookups evs = n
  /\ exists secret e,
       last evs (Slept 0) = Looked namespace sa secret (Some e)
       /\ r = (None, Some e).
Proof.
  induction 1 as [n s | s e | n s e d evs r Hw IH]; intros Hnone.
  - exfalso. apply (Hnone s). now left.
  - split; [reflexivity|]. exists s, e. split; reflexivity.
  - destruct IH as (Hn & s' & e' & Hlast & Hr).
    { intros secret Hin. apply (Hnone secret). right. right. exact Hin. }
    split; [unfold lookups in *; cbn in *; lia|].
    exists s', e'. split; [|exact Hr].
    inversion Hw; subst; exact Hlast.
Qed.

(** C1. [WaitForClientToken]: a lookup that succeeds on attempt k, k <= 10, is
    the last event of the run (no later attempt, no later sleep) and its
    secret is returned with a nil error; when no attempt succeeds, exactly ten
    lookups are made and the error returned, with a nil secret, is the one of
    the last lookup, not [wait.ErrWaitTimeout]. *)
Theorem WaitForClientToken_outcome {W : Type} (cp : ControlPlane W)
    (submarinerBrokerSA namespace : string) (w : W) :
  let r := WaitForClientToken cp submarinerBrokerSA namespace (start w) in
  (forall pre secret post,
      log (snd r)
      = pre ++ Looked namespace submarinerBrokerSA secret None :: post ->
      (lookups pre + 1 <= 10)%nat /\ post = [] /\ fst r = (secret, None))
  /\ ((forall secret,
         ~ In (Looked namespace submarinerBrokerSA secret None) (log (snd r))) ->
      lookups (log (snd r)) = 10%nat
      /\ exists secret e,
           last (log (snd r)) (Slept 0)
           = Looked namespace submarinerBrokerSA secret (Some e)
           /\ fst r = (None, Some e)).
Proof.
  intros r. pose proof (wait_trace cp submarinerBrokerSA namespace w) as Hw.
  cbv zeta in Hw. fold r in Hw. split.
  - intros pre secret post Heq.
    destruct (waits_found_is_last _ _ _ _ _ Hw pre secret post Heq)
      as (Hk & Hpost & Hr).
    repeat split; try assumption. lia.
  - intros Hnone. exact (waits_never_found _ _ _ _ _ Hw Hnone).
Qed.

(** ** Names of the per-cluster accounts *)

Lemma append_cancel (p a b : string) : (p ++ a = p ++ b)%string -> a = b.
Proof.
  induction p as [|ch p IH]; cbn; intros H; [exact H|].
  injection H as H. exact (IH H).
Qed.

(** C7. [ClusterSAName] depends on nothing but the cluster identifier: two
    identifiers get the same account name exactly when they are equal. *)
Theorem ClusterSAName_injective {names : BrokerConstants} (a b : string) :
  ClusterSAName a = ClusterSAName b <-> a = b.
Proof.
  split.
  - unfold ClusterSAName. apply append_cancel.
  - intros ->. reflexivity.
Qed.

(** ** Schema prerequisites *)

Section Dispatch.
Context {W : Type} (cp : ControlPlane W) {names : BrokerConstants}.

Lemma ensureCRDs_app (l1 l2 : list string) :
  forall st : State W,
    ensureCRDs cp (l1 ++ l2) st
    = (let (err, st1) := ensureCRDs cp l1 st in
       if nonNil err then (err, st1) else ensureCRDs cp l2 st1).
Proof.
  induction l1 as [|c l1 IH]; intros st; [reflexivity|].
  assert (Hinstall : forall rq message,
    (err <- call cp rq ;;
     if nonNil err then ret (Wrap err message)
     else ensureCRDs cp (l1 ++ l2)) st
    = (let (err, st1) :=
         (err <- call cp rq ;;
          if nonNil err then ret (Wrap err message)
          else ensureCRDs cp l1) st in
       if nonNil err then (err, st1) else ensureCRDs cp l2 st1)).
  { intros rq message. unfold bind.
    destruct (call cp rq st) as [[e|] st']; cbn [nonNil].
    - reflexivity.
    - apply IH. }
  cbn [app ensureCRDs].
  destruct (String.eqb c Connectivity); [apply Hinstall|].
  destruct (String.eqb c ServiceDiscovery); [apply Hinstall|].
  destruct (String.eqb c Globalnet); [apply Hinstall|].
  apply IH.
Qed.

Lemma ensureCRDs_unrecognized (c : string) (rest : list string)
    (st : State W) :
  c <> Connectivity -> c <> ServiceDiscovery -> c <> Globalnet ->
  ensureCRDs cp (c :: rest) st = ensureCRDs cp rest st.
Proof.
  intros H1 H2 H3. cbn [ensureCRDs].
  apply String.eqb_neq in H1, H2, H3. rewrite H1, H2, H3. reflexivity.
Qed.

Lemma ensureCRDs_recognized (c : string) (rest : list string) (rq : Request)
    (message : string) (st : State W) :
  dispatches c rq message ->
  ensureCRDs cp (c :: rest) st
  = (err <- call cp rq ;;
     if nonNil err then ret (Wrap err message)
     else ensureCRDs cp rest) st.
Proof.
  intros [(-> & -> & ->) | [(H1 & -> & -> & ->) | (H1 & H2 & -> & -> & ->)]];
    cbn [ensureCRDs].
  - rewrite String.eqb_refl. reflexivity.
  - apply String.eqb_neq in H1. rewrite H1, String.eqb_refl. reflexivity.
  - apply String.eqb_neq in H1, H2. rewrite H1, H2, String.eqb_refl.
    reflexivity.
Qed.

End Dispatch.

(** C5. In the dispatch of [Ensure], a component tag that is none of
    connectivity, service-discovery and globalnet changes nothing: the run
    is the run without the tag, so it installs nothing and raises no error.
    When the installer of a recognized tag fails, after the tags before it
    went through, [Ensure] stops there and returns the installer's error
    wrapped in the message of that capability. *)
Theorem Ensure_component_dispatch {W : Type} (cp : ControlPlane W)
    {names : BrokerConstants} (l1 l2 : list string) (c : string)
    (namespace : string) (st : State W) :
  (c <> Connectivity -> c <> ServiceDiscovery -> c <> Globalnet ->
   forall crds,
     Ensure cp (l1 ++ c :: l2) crds namespace st
     = Ensure cp (l1 ++ l2) crds namespace st)
  /\ (forall st1 rq message e w',
        ensureCRDs cp l1 st = (None, st1) ->
        dispatches c rq message ->
        serve cp rq (world st1) = (Some e, w') ->
        Ensure cp (l1 ++ c :: l2) true namespace st
        = (Some (withMessage e message),
           mkState w' (log st1 ++ [Called rq (Some e)]))).
Proof.
  split.
  - intros H1 H2 H3 [|]; [|reflexivity].
    rewrite !Ensure_after_crds, !ensureCRDs_app.
    destruct (ensureCRDs cp l1 st) as [err st1].
    destruct (nonNil err); [reflexivity|].
    rewrite ensureCRDs_unrecognized by assumption. reflexivity.
  - intros st1 rq message e w' Hl1 Hc Hserve.
    rewrite Ensure_after_crds, ensureCRDs_app, Hl1. cbn [nonNil].
    rewrite (ensureCRDs_recognized cp c l2 rq message st1 Hc).
    unfold bind, call. rewrite Hserve. reflexivity.
Qed.

(** ** The events of a run *)

Ltac in_cases H :=
  cbn [In app] in H;
  repeat match type of H with
         | _ \/ _ => destruct H as [H|H]
         | False => destruct H
         | In _ (_ ++ _) => apply in_app_or in H
         end.

Lemma schemaRun_events (evs : list Event) (err : option error) :
  schemaRun evs err ->
  forall ev, In ev evs ->
             exists rq e, isInstaller rq = true /\ ev = Called rq e.
Proof.
  induction 1 as [|rq evs err Hrq Hrun IH|rq e message Hrq]; intros ev Hin.
  - destruct Hin.
  - destruct Hin as [<-|Hin]; [eauto | auto].
  - destruct Hin as [<-|[]]. eauto.
Qed.

Lemma schemaRun_installed (evs : list Event) (err : option error) :
  schemaRun evs err -> err = None ->
  forall ev, In ev evs -> exists rq, isInstaller rq = true /\ ev = Called rq None.
Proof.
  induction 1 as [|rq evs err Hrq Hrun IH|rq e message Hrq];
    intros Herr ev Hin; try discriminate.
  - destruct Hin.
  - destruct Hin as [<-|Hin]; [eauto | now apply IH].
Qed.

Lemma waits_events (namespace sa : string) (n : nat) (evs : list Event)
    (r : option Secret * option error) :
  waits namespace sa n evs r ->
  forall ev, In ev evs ->
             (exists secret e, ev = Looked namespace sa secret e)
             \/ (exists d, ev = Slept d).
Proof.
  induction 1 as [n s | s e | n s e d evs r Hw IH]; intros ev Hin.
  - destruct Hin as [<-|[]]. left. eauto.
  - destruct Hin as [<-|[]]. left. eauto.
  - destruct Hin as [<-|[<-|Hin]]; [left; eauto | right; eauto | auto].
Qed.

Lemma waits_no_call (namespace sa : string) (n : nat) (evs : list Event)
    (r : option Secret * option error) (rq : Request) (e : option error) :
  waits namespace sa n evs r -> ~ In (Called rq e) evs.
Proof.
  intros Hw Hin.
  destruct (waits_events _ _ _ _ _ Hw _ Hin) as [(s & e' & H)|(d & H)];
    discriminate.
Qed.

Section Events.
Context {names : BrokerConstants}.

Lemma adminRun_events (namespace : string) (evs : list Event)
    (err : option error) :
  adminRun namespace evs err ->
  forall ev, In ev evs ->
             exists rq e, isInstaller rq = false /\ ev = Called rq e.
Proof.
  intros Hrun ev Hin. inversion Hrun; subst; in_cases Hin; subst;
    eexists _, _; refine (conj _ eq_refl); reflexivity.
Qed.

Lemma clusterRun_events (namespace : string) (evs : list Event)
    (err : option error) :
  clusterRun namespace evs err ->
  forall ev, In ev evs ->
             exists rq e, isInstaller rq = false /\ ev = Called rq e.
Proof.
  intros Hrun ev Hin. inversion Hrun; subst; in_cases Hin; subst;
    eexists _, _; refine (conj _ eq_refl); reflexivity.
Qed.

Lemma provisionRun_calls (namespace : string) (evs : list Event)
    (err : option error) :
  provisionRun namespace evs err ->
  forall rq e, In (Called rq e) evs -> isInstaller rq = false.
Proof.
  intros Hrun rq e Hin.
  assert (Hcall : forall l,
    (forall ev, In ev l ->
                exists rq e, isInstaller rq = false /\ ev = Called rq e) ->
    In (Called rq e) l -> isInstaller rq = false).
  { intros l Hl Hi. destruct (Hl _ Hi) as (rq' & e' & Hrq & Heq).
    injection Heq as -> ->. exact Hrq. }
  inversion Hrun; subst; in_cases Hin;
    try (injection Hin as <- <-; reflexivity);
    try (eapply Hcall; [eapply adminRun_events; eassumption | eassumption]);
    try (eapply Hcall; [eapply clusterRun_events; eassumption | eassumption]).
  exfalso. eapply waits_no_call; eassumption.
Qed.

End Events.

(** C6. With [crds] false, [Ensure] runs as it does on an empty component
    list, whatever the list holds: no schema installer is called, and the
    namespace, accounts, roles, bindings and token wait follow as usual. *)
Theorem Ensure_without_crds {W : Type} (cp : ControlPlane W)
    {names : BrokerConstants} (componentArr componentArr' : list string)
    (namespace : string) (w : W) :
  let r := Ensure cp componentArr false namespace (start w) in
  r = Ensure cp componentArr' false namespace (start w)
  /\ r = Ensure cp [] true namespace (start w)
  /\ forall rq err, In (Called rq err) (log (snd r)) -> isInstaller rq = false.
Proof.
  intros r. split; [reflexivity|]. split; [reflexivity|].
  intros rq err Hin. subst r. rewrite Ensure_no_crds in Hin.
  destruct (provision_sound cp namespace (start w))
    as (err' & w' & evs & Heq & Hrun).
  rewrite Heq in Hin. cbn in Hin.
  exact (provisionRun_calls namespace evs err' Hrun rq err Hin).
Qed.

(** ** The two role steps *)

Section Roles.
Context {names : BrokerConstants}.

Lemma adminRun_role_answer (namespace namespace' : string)
    (evs : list Event) (err : option error) (e : error) :
  adminRun namespace evs err ->
  In (Called (CreateOrUpdateRole namespace' NewBrokerAdminRole) (Some e)) evs ->
  err = Some (withMessage e "error creating subctl role")
  /\ exists e1,
       evs = [Called (ServiceAccountCreate namespace SubmarinerBrokerAdminSA) e1;
              Called (CreateOrUpdateRole namespace NewBrokerAdminRole) (Some e)].
Proof.
  intros Hrun Hin. inversion Hrun; subst; in_cases Hin; try discriminate.
  injection Hin as -> ->. split; [reflexivity | eauto].
Qed.

Lemma adminRun_succeeded (namespace : string) (evs : list Event) :
  adminRun namespace evs None ->
  exists e1 e3,
    fatal e1 = false /\ fatal e3 = false
    /\ evs = [Called (ServiceAccountCreate namespace SubmarinerBrokerAdminSA) e1;
              Called (CreateOrUpdateRole namespace NewBrokerAdminRole) None;
              Called (RoleBindingCreate namespace SubmarinerBrokerAdminSA
                        submarinerBrokerAdminRole) e3].
Proof.
  intros Hrun. inversion Hrun as [e1 F1 Hevs Herr | e1 e2 F1 F2 Hevs Herr
                                 | e1 e3 F1 F3 Hevs Herr | e1 e3 F1 F3]; subst.
  - destruct e1; [discriminate Herr | discriminate F1].
  - destruct e2; [discriminate Herr | discriminate F2].
  - destruct e3; [discriminate Herr | discriminate F3].
  - eauto.
Qed.

Lemma clusterRun_role_answer (namespace : string) (evs : list Event)
    (err : option error) (e : error) :
  clusterRun namespace evs err ->
  In (Called (CreateOrUpdateRole namespace NewBrokerClusterRole) (Some e)) evs ->
  IsAlreadyExists (Some e) = true ->
  exists e1 e3,
    evs = [Called (ServiceAccountCreate namespace
                     submarinerBrokerClusterDefaultSA) e1;
           Called (CreateOrUpdateRole namespace NewBrokerClusterRole) (Some e);
           Called (RoleBindingCreate namespace submarinerBrokerClusterDefaultSA
                     submarinerBrokerClusterRole) e3]
    /\ err = (if fatal e3
              then Wrap e3 "error creating the broker rolebinding"
              else None).
Proof.
  intros Hrun Hin Hexists.
  inversion Hrun as [e1 F1 | e1 e2 F1 F2 | e1 e2 e3 F1 F2 F3
                    | e1 e2 e3 F1 F2 F3]; subst;
    in_cases Hin; try discriminate; injection Hin as ->.
  - unfold fatal in F2. rewrite Hexists in F2. discriminate.
  - exists e1, e3. rewrite F3. split; reflexivity.
  - exists e1, e3. rewrite F3. split; reflexivity.
Qed.

Lemma clusterRun_no_admin_role (namespace namespace' : string)
    (evs : list Event) (err e : option error) :
  clusterRun namespace evs err ->
  ~ In (Called (CreateOrUpdateRole namespace' NewBrokerAdminRole) e) evs.
Proof.
  intros Hrun Hin. inversion Hrun; subst; in_cases Hin; discriminate.
Qed.

End Roles.

Lemma ensureRun_admin_role_answer {names : BrokerConstants}
    (namespace : string) (evs : list Event) (err : option error) (e : error) :
  ensureRun namespace evs err ->
  In (Called (CreateOrUpdateRole namespace NewBrokerAdminRole) (Some e)) evs ->
  err = Some (withMessage e "error creating subctl role")
  /\ exists sevs e0 e1,
       evs
       = sevs ++
         [Called (NamespaceCreate namespace) e0;
          Called (ServiceAccountCreate namespace SubmarinerBrokerAdminSA) e1;
          Called (CreateOrUpdateRole namespace NewBrokerAdminRole) (Some e)]
       /\ forall ev, In ev sevs ->
                     exists rq, isInstaller rq = true /\ ev = Called rq None.
Proof.
  intros Hrun Hin.
  assert (Hnot : forall l err',
    schemaRun l err' ->
    ~ In (Called (CreateOrUpdateRole namespace NewBrokerAdminRole) (Some e)) l).
  { intros l err' Hl Hi.
    destruct (schemaRun_events _ _ Hl _ Hi) as (rq & e' & Hrq & Heq).
    injection Heq as <- _. discriminate Hrq. }
  inversion Hrun as [evs0 err0 Hschema Herr | sevs pevs err0 Hschema Hprov];
    subst; [exfalso; eapply Hnot; eassumption|].
  apply in_app_or in Hin. destruct Hin as [Hin|Hin];
    [exfalso; eapply Hnot; eassumption|].
  inversion Hprov as [e0 F0 | e0 aevs aerr F0 Hadmin Hnil
                     | e0 aevs cevs cerr F0 Hadmin Hcluster Hnil
                     | e0 aevs cevs wevs wr F0 Hadmin Hcluster Hwait];
    subst; in_cases Hin; try discriminate;
    try (exfalso; eapply clusterRun_no_admin_role; eassumption);
    try (exfalso; eapply waits_no_call; eassumption);
    destruct (adminRun_role_answer _ _ _ _ _ Hadmin Hin) as (Herr & e1 & ->);
    try discriminate.
  split; [exact Herr|]. exists sevs, e0, e1. split; [reflexivity|].
  exact (schemaRun_installed _ _ Hschema eq_refl).
Qed.

(** C3. When the create-or-update of the administrator role answers [Ensure]
    with an error that is not AlreadyExists, [Ensure] returns that error,
    wrapped as "error creating subctl role", and the role request is the last
    thing it did: before it come only the schema installers, the namespace
    create and the administrator account create, after it nothing, so no
    role binding, no default account, no token wait and no request that
    would undo the namespace or the account. *)
Theorem Ensure_admin_role_failure {W : Type} (cp : ControlPlane W)
    {names : BrokerConstants} (componentArr : list string) (crds : bool)
    (namespace : string) (w : W) (e : error) :
  let r := Ensure cp componentArr crds namespace (start w) in
  In (Called (CreateOrUpdateRole namespace NewBrokerAdminRole) (Some e))
    (log (snd r)) ->
  IsAlreadyExists (Some e) = false ->
  fst r = Some (withMessage e "error creating subctl role")
  /\ exists sevs e0 e1,
       log (snd r)
       = sevs ++
         [Called (NamespaceCreate namespace) e0;
          Called (ServiceAccountCreate namespace SubmarinerBrokerAdminSA) e1;
          Called (CreateOrUpdateRole namespace NewBrokerAdminRole) (Some e)]
       /\ forall ev, In ev sevs ->
                     exists rq, isInstaller rq = true /\ ev = Called rq None.
Proof.
  intros r Hin _.
  exact (ensureRun_admin_role_answer namespace _ _ e
           (Ensure_trace cp componentArr crds namespace w) Hin).
Qed.

(** C10. The two role steps treat an AlreadyExists answer differently.  In
    [createBrokerClusterRoleAndDefaultSA] an AlreadyExists from the cluster
    role is absorbed: the role binding is requested next and the result is
    that of the binding.  In [createBrokerAdministratorRoleAndSA] any error
    from the administrator role, AlreadyExists included, ends the function:
    it is returned wrapped as "error creating subctl role" and no role
    binding is requested. *)
Theorem role_steps_differ_on_AlreadyExists {W : Type} (cp : ControlPlane W)
    {names : BrokerConstants} (namespace : string) (w w' : W)
    (e e' : error) :
  let rc := createBrokerClusterRoleAndDefaultSA cp namespace (start w) in
  let ra := createBrokerAdministratorRoleAndSA cp namespace (start w') in
  IsAlreadyExists (Some e) = true ->
  In (Called (CreateOrUpdateRole namespace NewBrokerClusterRole) (Some e))
    (log (snd rc)) ->
  In (Called (CreateOrUpdateRole namespace NewBrokerAdminRole) (Some e'))
    (log (snd ra)) ->
  (exists e1 e3,
      log (snd rc)
      = [Called (ServiceAccountCreate namespace
                   submarinerBrokerClusterDefaultSA) e1;
         Called (CreateOrUpdateRole namespace NewBrokerClusterRole) (Some e);
         Called (RoleBindingCreate namespace submarinerBrokerClusterDefaultSA
                   submarinerBrokerClusterRole) e3]
      /\ fst rc = (if fatal e3
                   then Wrap e3 "error creating the broker rolebinding"
                   else None))
  /\ (fst ra = Some (withMessage e' "error creating subctl role")
      /\ exists e1,
           log (snd ra)
           = [Called (ServiceAccountCreate namespace SubmarinerBrokerAdminSA) e1;
              Called (CreateOrUpdateRole namespace NewBrokerAdminRole)
                (Some e')]).
Proof.
  intros rc ra Hexists Hc Ha. split.
  - exact (clusterRun_role_answer namespace _ _ e
             (cluster_trace cp namespace w) Hc Hexists).
  - exact (adminRun_role_answer namespace namespace _ _ e'
             (admin_trace cp namespace w') Ha).
Qed.

(** ** Enrolling a cluster *)

Lemma waits_nonempty (namespace sa : string) (n : nat) (evs : list Event)
    (r : option Secret * option error) :
  waits namespace sa n evs r -> evs <> [].
Proof. destruct 1; discriminate. Qed.

Lemma waits_last_failed (namespace sa : string) (n : nat) (evs : list Event)
    (r : option Secret * option error) :
  waits namespace sa n evs r ->
  forall namespace' sa' secret e,
    last evs (Slept 0) = Looked namespace' sa' secret (Some e) ->
    r = (None, Some e).
Proof.
  induction 1 as [n s | s e0 | n s e0 d evs r Hw IH];
    intros namespace' sa' secret e Hlast.
  - discriminate Hlast.
  - cbn in Hlast. injection Hlast as _ _ _ ->. reflexivity.
  - apply (IH namespace' sa' secret e).
    pose proof (waits_nonempty _ _ _ _ _ Hw) as Hne.
    destruct evs as [|x evs]; [contradiction|]. exact Hlast.
Qed.

(** C9. When the token wait of [CreateSAForCluster] runs out and the error it
    surfaces, the one of the last lookup, satisfies [IsAlreadyExists], the
    function returns a nil secret and a nil error. *)
Theorem CreateSAForCluster_nil_nil {W : Type} (cp : ControlPlane W)
    {names : BrokerConstants} (clusterID namespace : string) (w : W)
    (namespace' sa' : string) (secret : option Secret) (e : error) :
  let r := CreateSAForCluster cp clusterID namespace (start w) in
  last (log (snd r)) (Slept 0) = Looked namespace' sa' secret (Some e) ->
  IsAlreadyExists (Some e) = true ->
  fst r = (None, None).
Proof.
  intros r Hlast Hexists.
  pose proof (enrol_trace cp clusterID namespace w) as Hrun.
  cbv zeta in Hrun. fold r in Hrun.
  inversion Hrun as [e1 F1 Hevs Hres | e1 e2 F1 F2 Hevs Hres
                    | e1 e2 wevs wr F1 F2 Hw Hevs Hres].
  - rewrite <- Hevs in Hlast. discriminate Hlast.
  - rewrite <- Hevs in Hlast. discriminate Hlast.
  - rewrite <- Hevs in Hlast.
    pose proof (waits_nonempty _ _ _ _ _ Hw) as Hne.
    destruct wevs as [|x wevs]; [contradiction|].
    change (last (x :: wevs) (Slept 0)
            = Looked namespace' sa' secret (Some e)) in Hlast.
    rewrite (waits_last_failed _ _ _ _ _ Hw _ _ _ _ Hlast).
    cbn [fst snd]. unfold fatal. rewrite Hexists. reflexivity.
Qed.

(** ** Creation comes before the wait *)

Lemma onlyCalls_app (l l' : list Event) :
  onlyCalls l -> onlyCalls l' -> onlyCalls (l ++ l').
Proof.
  intros Hl Hl' ev Hin. apply in_app_or in Hin. destruct Hin; auto.
Qed.

Lemma onlyCalls_cons (rq : Request) (e : option error) (l : list Event) :
  onlyCalls l -> onlyCalls (Called rq e :: l).
Proof. intros Hl ev [<-|Hin]; [eexists _, _; reflexivity | auto]. Qed.

Lemma onlyCalls_nil : onlyCalls [].
Proof. intros ev []. Qed.

Lemma schemaRun_onlyCalls (evs : list Event) (err : option error) :
  schemaRun evs err -> onlyCalls evs.
Proof.
  intros Hrun ev Hin.
  destruct (schemaRun_events _ _ Hrun _ Hin) as (rq & e & _ & ->). eauto.
Qed.

Lemma adminRun_onlyCalls {names : BrokerConstants} (namespace : string)
    (evs : list Event) (err : option error) :
  adminRun namespace evs err -> onlyCalls evs.
Proof.
  intros Hrun ev Hin.
  destruct (adminRun_events _ _ _ Hrun _ Hin) as (rq & e & _ & ->). eauto.
Qed.

Lemma clusterRun_onlyCalls {names : BrokerConstants} (namespace : string)
    (evs : list Event) (err : option error) :
  clusterRun namespace evs err -> onlyCalls evs.
Proof.
  intros Hrun ev Hin.
  destruct (clusterRun_events _ _ _ Hrun _ Hin) as (rq & e & _ & ->). eauto.
Qed.

Lemma calls_are_a_prefix (front : list Event) :
  onlyCalls front ->
  forall pre namespace sa secret err post rest,
    pre ++ Looked namespace sa secret err :: post = front ++ rest ->
    exists pre',
      pre = front ++ pre'
      /\ rest = pre' ++ Looked namespace sa secret err :: post.
Proof.
  induction front as [|x front IH];
    intros Hcalls pre namespace sa secret err post rest Heq.
  - exists pre. split; [reflexivity | symmetry; exact Heq].
  - destruct pre as [|y pre]; cbn in Heq.
    + injection Heq as Hx _.
      destruct (Hcalls x (or_introl eq_refl)) as (rq & e & Hcall).
      rewrite Hcall in Hx. discriminate Hx.
    + injection Heq as -> Heq.
      destruct (IH (fun ev H => Hcalls ev (or_intror H))
                  pre namespace sa secret err post rest Heq)
        as (pre' & -> & ->).
      exists pre'. split; reflexivity.
Qed.

Lemma createdBeforeLookup_calls (evs : list Event) :
  onlyCalls evs -> createdBeforeLookup evs.
Proof.
  intros Hcalls pre namespace sa secret err post Heq.
  destruct (Hcalls (Looked namespace sa secret err)) as (rq & e & H);
    [rewrite Heq; apply in_elt | discriminate H].
Qed.

Lemma createdBeforeLookup_wait (front wevs : list Event)
    (namespace sa : string) (n : nat) (r : option Secret * option error)
    (e : option error) :
  onlyCalls front ->
  In (Called (ServiceAccountCreate namespace sa) e) front ->
  waits namespace sa n wevs r ->
  createdBeforeLookup (front ++ wevs).
Proof.
  intros Hcalls Hin Hw pre namespace' sa' secret err post Heq.
  destruct (calls_are_a_prefix front Hcalls _ _ _ _ _ _ _ (eq_sym Heq))
    as (pre' & -> & Hwevs).
  destruct (waits_events _ _ _ _ _ Hw (Looked namespace' sa' secret err))
    as [(s & e' & Hev)|(d & Hev)];
    [rewrite Hwevs; apply in_elt | | discriminate Hev].
  injection Hev as -> -> _ _.
  exists e. apply in_or_app. left. exact Hin.
Qed.

(** C8. In every run of [Ensure] and of [CreateSAForCluster], a lookup of
    the credential of a service account comes after the request to create
    that service account. *)
Theorem token_wait_follows_creation {W : Type} (cp : ControlPlane W)
    {names : BrokerConstants} (componentArr : list string) (crds : bool)
    (clusterID namespace : string) (w : W) :
  createdBeforeLookup
    (log (snd (Ensure cp componentArr crds namespace (start w))))
  /\ createdBeforeLookup
       (log (snd (CreateSAForCluster cp clusterID namespace (start w)))).
Proof.
  split.
  - pose proof (Ensure_trace cp componentArr crds namespace w) as Hrun.
    cbv zeta in Hrun.
    inversion Hrun as [evs0 err0 Hschema Herr | sevs pevs err0 Hschema Hprov].
    { apply createdBeforeLookup_calls. eapply schemaRun_onlyCalls; eassumption. }
    pose proof (schemaRun_onlyCalls _ _ Hschema) as Hs.
    inversion Hprov as [e0 F0 | e0 aevs aerr F0 Hadmin Hnil
                       | e0 aevs cevs cerr F0 Hadmin Hcluster Hnil
                       | e0 aevs cevs wevs wr F0 Hadmin Hcluster Hwait].
    + apply createdBeforeLookup_calls, onlyCalls_app; [exact Hs|].
      apply onlyCalls_cons, onlyCalls_nil.
    + apply createdBeforeLookup_calls, onlyCalls_app; [exact Hs|].
      apply onlyCalls_cons. eapply adminRun_onlyCalls; eassumption.
    + apply createdBeforeLookup_calls, onlyCalls_app; [exact Hs|].
      apply onlyCalls_cons, onlyCalls_app;
        [eapply adminRun_onlyCalls | eapply clusterRun_onlyCalls]; eassumption.
    + destruct (adminRun_succeeded _ _ Hadmin) as (e1 & e3 & _ & _ & Haevs).
      replace (sevs ++ Called (NamespaceCreate namespace) e0
                 :: aevs ++ cevs ++ wevs)
        with ((sevs ++ Called (NamespaceCreate namespace) e0 :: aevs ++ cevs)
                ++ wevs)
        by (rewrite <- !app_assoc; cbn [app]; rewrite <- !app_assoc;
            reflexivity).
      eapply createdBeforeLookup_wait with (e := e1); [| |exact Hwait].
      * apply onlyCalls_app; [exact Hs|].
        apply onlyCalls_cons, onlyCalls_app;
          [eapply adminRun_onlyCalls | eapply clusterRun_onlyCalls];
          eassumption.
      * apply in_or_app. right. right. apply in_or_app. left.
        rewrite Haevs. left. reflexivity.
  - pose proof (enrol_trace cp clusterID namespace w) as Hrun.
    cbv zeta in Hrun.
    inversion Hrun as [e1 F1 | e1 e2 F1 F2 | e1 e2 wevs wr F1 F2 Hwait].
    + apply createdBeforeLookup_calls, onlyCalls_cons, onlyCalls_nil.
    + apply createdBeforeLookup_calls.
      do 2 apply onlyCalls_cons. apply onlyCalls_nil.
    + change (createdBeforeLookup
                ([Called (ServiceAccountCreate namespace
                            (ClusterSAName clusterID)) e1;
                  Called (RoleBindingCreate namespace (ClusterSAName clusterID)
                            submarinerBrokerClusterRole) e2] ++ wevs)).
      eapply createdBeforeLookup_wait with (e := e1); [| |exact Hwait].
      * do 2 apply onlyCalls_cons. apply onlyCalls_nil.
      * left. reflexivity.
Qed.

(** ** Running the provisioning again *)

Lemma last_app_nonempty {A : Type} (l l' : list A) (d : A) :
  l' <> [] -> last (l ++ l') d = last l' d.
Proof.
  intros Hne. induction l as [|x l IH]; [reflexivity|].
  cbn [app]. rewrite <- IH.
  destruct (l ++ l') as [|y t] eqn:Heq; [|reflexivity].
  apply app_eq_nil in Heq. destruct Heq as [_ Heq]. contradiction.
Qed.

Lemma timedOut_app_nonempty (l l' : list Event) :
  l' <> [] -> timedOut (l ++ l') = timedOut l'.
Proof.
  intros Hne. unfold timedOut. now rewrite last_app_nonempty.
Qed.

Lemma found_in_suffix (l l' : list Event) :
  existsb found l' = true -> existsb found (l ++ l') = true.
Proof. intros H. rewrite existsb_app, H. apply orb_true_r. Qed.

Lemma waits_not_timedOut (namespace sa : string) (n : nat)
    (evs : list Event) (r : option Secret * option error) :
  waits namespace sa n evs r -> timedOut evs = false ->
  snd r = None /\ existsb found evs = true.
Proof.
  induction 1 as [n s | s e | n s e d evs r Hw IH]; intros Hout.
  - split; reflexivity.
  - discriminate Hout.
  - apply IH.
    assert (Hne : evs <> []) by (destruct Hw; discriminate).
    change (Looked namespace sa s (Some e) :: Slept d :: evs)
      with ([Looked namespace sa s (Some e); Slept d] ++ evs) in Hout.
    now rewrite timedOut_app_nonempty in Hout.
Qed.

Lemma schemaRun_failed_intolerable (evs : list Event) (err : option error) :
  schemaRun evs err -> nonNil err = true -> forallb tolerable evs = false.
Proof.
  induction 1 as [|rq evs err Hrq Hrun IH|rq e message Hrq]; intros Herr.
  - discriminate Herr.
  - cbn [forallb]. rewrite (IH Herr). apply andb_false_r.
  - destruct rq; try discriminate Hrq; reflexivity.
Qed.

Ltac answers :=
  cbn [forallb tolerable];
  repeat match goal with
         | H : fatal ?e = true |- _ =>
             rewrite ?H, ?(fatal_nonNil e H); clear H
         | H : fatal _ = false |- _ => rewrite ?H; clear H
         | H : nonNil _ = true |- _ => rewrite ?H; clear H
         end;
  cbn [negb andb]; rewrite ?andb_false_r; try reflexivity.

Section Failures.
Context {names : BrokerConstants}.

Lemma adminRun_failed_intolerable (namespace : string) (evs : list Event)
    (err : option error) :
  adminRun namespace evs err -> nonNil err = true ->
  forallb tolerable evs = false.
Proof.
  intros Hrun Herr. inversion Hrun; subst; try discriminate Herr; answers.
Qed.

Lemma clusterRun_failed_intolerable (namespace : string) (evs : list Event)
    (err : option error) :
  clusterRun namespace evs err -> nonNil err = true ->
  forallb tolerable evs = false.
Proof.
  intros Hrun Herr. inversion Hrun; subst; try discriminate Herr; answers.
Qed.

Lemma ensureRun_tolerated (namespace : string) (evs : list Event)
    (err : option error) :
  ensureRun namespace evs err -> tolerated evs = true ->
  err = None /\ existsb found evs = true.
Proof.
  intros Hrun Hclean. unfold tolerated in Hclean.
  apply andb_true_iff in Hclean. destruct Hclean as [Htol Hout].
  apply negb_true_iff in Hout.
  inversion Hrun as [evs0 err0 Hschema Herr | sevs pevs err0 Hschema Hprov];
    subst.
  { rewrite (schemaRun_failed_intolerable _ _ Hschema Herr) in Htol.
    discriminate Htol. }
  rewrite forallb_app in Htol. apply andb_true_iff in Htol.
  destruct Htol as [_ Htol].
  inversion Hprov as [e0 F0 | e0 aevs aerr F0 Hadmin Hnil
                     | e0 aevs cevs cerr F0 Hadmin Hcluster Hnil
                     | e0 aevs cevs wevs wr F0 Hadmin Hcluster Hwait];
    subst.
  - cbn in Htol. rewrite F0 in Htol. discriminate Htol.
  - cbn [forallb] in Htol.
    rewrite (adminRun_failed_intolerable _ _ _ Hadmin Hnil), andb_false_r
      in Htol.
    discriminate Htol.
  - cbn [forallb] in Htol.
    rewrite forallb_app,
      (clusterRun_failed_intolerable _ _ _ Hcluster Hnil), !andb_false_r
      in Htol.
    discriminate Htol.
  - assert (Hne : wevs <> []) by (destruct Hwait; discriminate).
    assert (Hshape : sevs ++ Called (NamespaceCreate namespace) e0
                       :: aevs ++ cevs ++ wevs
                     = (sevs ++ Called (NamespaceCreate namespace) e0
                          :: aevs ++ cevs) ++ wevs)
      by (rewrite <- !app_assoc; cbn [app]; rewrite <- !app_assoc;
          reflexivity).
    rewrite Hshape in Hout |- *.
    rewrite (timedOut_app_nonempty _ _ Hne) in Hout.
    destruct (waits_not_timedOut _ _ _ _ _ Hwait Hout) as [Hnil Hfound].
    split; [exact Hnil | now apply found_in_suffix].
Qed.

Lemma enrolRun_tolerated (clusterID namespace : string)
    (evs : list Event) (r : option Secret * option error) :
  enrolRun clusterID namespace evs r -> tolerated evs = true ->
  snd r = None /\ existsb found evs = true.
Proof.
  intros Hrun Hclean. unfold tolerated in Hclean.
  apply andb_true_iff in Hclean. destruct Hclean as [Htol Hout].
  apply negb_true_iff in Hout.
  inversion Hrun as [e1 F1 | e1 e2 F1 F2 | e1 e2 wevs wr F1 F2 Hwait]; subst.
  - cbn in Htol. rewrite F1 in Htol. discriminate Htol.
  - cbn in Htol. rewrite F1, F2 in Htol. discriminate Htol.
  - assert (Hne : wevs <> []) by (destruct Hwait; discriminate).
    match type of Hout with
    | timedOut (?a :: ?b :: wevs) = _ =>
        change (a :: b :: wevs) with ([a; b] ++ wevs) in Hout |- *
    end.
    rewrite (timedOut_app_nonempty _ _ Hne) in Hout.
    destruct (waits_not_timedOut _ _ _ _ _ Hwait Hout) as [Hnil Hfound].
    rewrite Hnil. split; [reflexivity | now apply found_in_suffix].
Qed.

End Failures.

(** C2. The creates of [Ensure] and [CreateSAForCluster] (namespace, service
    accounts, role bindings) take an AlreadyExists answer for success.  In a
    run where every answer these creates got was success or AlreadyExists,
    the other requests that were made succeeded and the run does not end on
    a failed lookup, no create stopped the function: it went on through
    every step to the token wait, a lookup found the credential and the
    error returned is nil.  The hypothesis speaks of the answers received
    only, not of how far the run got.  Called a second time with the same
    arguments, in the world the first call left behind, the function does
    the same again. *)
Theorem provisioning_twice {W : Type} (cp : ControlPlane W)
    {names : BrokerConstants} (componentArr : list string) (crds : bool)
    (clusterID namespace : string) (w w' : W) :
  let e1 := Ensure cp componentArr crds namespace (start w) in
  let e2 := Ensure cp componentArr crds namespace (start (world (snd e1))) in
  let c1 := CreateSAForCluster cp clusterID namespace (start w') in
  let c2 :=
    CreateSAForCluster cp clusterID namespace (start (world (snd c1))) in
  tolerated (log (snd e1)) = true ->
  tolerated (log (snd e2)) = true ->
  tolerated (log (snd c1)) = true ->
  tolerated (log (snd c2)) = true ->
  ((fst e1 = None /\ existsb found (log (snd e1)) = true)
   /\ (fst e2 = None /\ existsb found (log (snd e2)) = true))
  /\ ((snd (fst c1) = None /\ existsb found (log (snd c1)) = true)
      /\ (snd (fst c2) = None /\ existsb found (log (snd c2)) = true)).
Proof.
  intros e1 e2 c1 c2 He1 He2 Hc1 Hc2. repeat apply conj.
  - exact (proj1 (ensureRun_tolerated namespace _ _
                    (Ensure_trace cp componentArr crds namespace w) He1)).
  - exact (proj2 (ensureRun_tolerated namespace _ _
                    (Ensure_trace cp componentArr crds namespace w) He1)).
  - exact (proj1 (ensureRun_tolerated namespace _ _
                    (Ensure_trace cp componentArr crds namespace
                       (world (snd e1))) He2)).
  - exact (proj2 (ensureRun_tolerated namespace _ _
                    (Ensure_trace cp componentArr crds namespace
                       (world (snd e1))) He2)).
  - exact (proj1 (enrolRun_tolerated clusterID namespace _ _
                    (enrol_trace cp clusterID namespace w') Hc1)).
  - exact (proj2 (enrolRun_tolerated clusterID namespace _ _
                    (enrol_trace cp clusterID namespace w') Hc1)).
  - exact (proj1 (enrolRun_tolerated clusterID namespace _ _
                    (enrol_trace cp clusterID namespace (world (snd c1)))
                    Hc2)).
  - exact (proj2 (enrolRun_tolerated clusterID namespace _ _
                    (enrol_trace cp clusterID namespace (world (snd c1)))
                    Hc2)).
Qed.

(** ** How long the token wait sleeps *)

(** C4. The wait can outlast the documented sum.  When no lookup succeeds
    and every jitter draw is one half, [WaitForClientToken] makes its ten
    attempts, sleeps nine times and has slept about 156 seconds when it gives
    up, more than the documented sum(n=0..9, 1.2^n * 5) = 129.79 seconds and
    more than 130 seconds. *)
Theorem WaitForClientToken_outlasts_documented_wait :
  let r :=
    WaitForClientToken fake "submariner-k8s-broker-admin" "broker-ns"
      (start neverReady) in
  fst r = (None, Some (StatusError StatusReasonNotFound "not found"))
  /\ lookups (log (snd r)) = 10%nat
  /\ slept (log (snd r)) = 155991763200%Z
  /\ (documentedWait < inject_Z (slept (log (snd r))))%Q
  /\ (130 * Second < slept (log (snd r)))%Z.
Proof. vm_compute. repeat split. Qed.

(** Without jitter the nine sleeps add up to about 104 seconds, which the
    documented sum covers. *)
Lemma WaitForClientToken_wait_without_jitter :
  let r :=
    WaitForClientToken fake "submariner-k8s-broker-admin" "broker-ns"
      (start (fresh 10)) in
  slept (log (snd r)) = 103994508800%Z
  /\ (inject_Z (slept (log (snd r))) <= documentedWait)%Q.
Proof. vm_compute. split; [reflexivity | discriminate]. Qed.

Lemma slept_app (l l' : list Event) : slept (l ++ l') = (slept l + slept l')%Z.
Proof.
  induction l as [|ev l IH]; [reflexivity|].
  cbn [app]. unfold slept in *. cbn [fold_right]. rewrite IH.
  destruct ev; lia.
Qed.

Lemma truncate_share (r : Q) (d : Z) :
  (0 <= r)%Q -> (r <= 1)%Q -> (0 <= d)%Z ->
  (0 <= wait.truncate (r * 1 * inject_Z d) <= d)%Z.
Proof.
  destruct r as [n p]. unfold Qle, wait.truncate. cbn. intros H0 H1 Hd.
  rewrite Z.mul_1_r in *. rewrite !Pos.mul_1_r.
  assert (0 <= n * d)%Z by nia.
  rewrite Z.quot_div_nonneg by lia. split.
  - apply Z.div_pos; lia.
  - apply Z.div_le_upper_bound; [lia | nia].
Qed.

Lemma truncate_factor_nonneg (d : Z) :
  (0 <= d)%Z -> (0 <= wait.truncate (inject_Z d * (12 # 10)%Q))%Z.
Proof.
  intros Hd. unfold wait.truncate. cbn. apply Z.quot_pos; lia.
Qed.

Lemma baseSleeps_nonneg (n : nat) :
  forall d, (0 <= d)%Z -> (0 <= baseSleeps n d)%Z.
Proof.
  induction n as [|n IH]; intros d Hd; cbn [baseSleeps]; [lia|].
  pose proof (IH _ (truncate_factor_nonneg d Hd)). lia.
Qed.

Section Sleeps.
Context {W : Type} (cp : ControlPlane W) (Hdraws : drawsInUnit cp).

Lemma Step_sleep (b : wait.Backoff) (st : State W) :
  (1 <= wait.Steps b)%Z -> wait.Cap b = 0%Z ->
  wait.Factor b = (12 # 10)%Q -> wait.Jitter b = 1%Q ->
  (0 <= wait.Duration b)%Z ->
  exists d w,
    wait.Step cp b st
    = ((d, wait.mkBackoff
             (wait.truncate (inject_Z (wait.Duration b) * (12 # 10)%Q))
             (12 # 10)%Q 1 (wait.Steps b - 1) 0),
       mkState w (log st))
    /\ (wait.Duration b <= d <= 2 * wait.Duration b)%Z.
Proof.
  intros Hsteps Hcap Hfactor Hjitter Hd. unfold wait.Step.
  destruct (wait.Steps b <? 1)%Z eqn:Hlt; [apply Z.ltb_lt in Hlt; lia|].
  rewrite Hcap, Hfactor, Hjitter. cbn [Z.gtb Z.compare andb].
  change (Qeq_bool (12 # 10)%Q 0) with false.
  change (wait.Qpositive 1) with true. cbv iota.
  unfold wait.JitterDuration, wait.randFloat64, bind, ret.
  change (Qle_bool 1 0) with false. cbv iota.
  pose proof (Hdraws (world st)) as [H0 H1].
  destruct (Float64 cp (world st)) as [r w]. cbn [fst] in H0, H1.
  cbn [world log].
  eexists _, w. split; [reflexivity|].
  pose proof (truncate_share r (wait.Duration b) H0 H1 Hd). lia.
Qed.

Lemma backoffLoop_slept (namespace sa : string) :
  forall (fuel n : nat) (b : wait.Backoff)
         (l : option Secret * option error) (st : State W),
    wait.Steps b = Z.of_nat (S n) -> wait.Cap b = 0%Z ->
    wait.Factor b = (12 # 10)%Q -> wait.Jitter b = 1%Q ->
    (0 <= wait.Duration b)%Z -> (S n <= fuel)%nat ->
    exists evs,
      log (snd (wait.backoffLoop cp fuel b (tokenCondition cp namespace sa)
                  l st))
      = log st ++ evs
      /\ (0 <= slept evs <= 2 * baseSleeps n (wait.Duration b))%Z.
Proof.
  induction fuel as [|fuel IH];
    intros n b l st Hsteps Hcap Hfactor Hjitter Hd Hfuel; [lia|].
  cbn [wait.backoffLoop].
  destruct (wait.Steps b >? 0)%Z eqn:Hpos;
    [|rewrite Z.gtb_ltb in Hpos; apply Z.ltb_ge in Hpos; lia].
  pose proof (baseSleeps_nonneg n _ Hd) as Hbase.
  unfold bind at 1. unfold tokenCondition at 1. unfold bind at 1.
  destruct (lookup_run cp namespace sa st) as (secret & lastErr & w & ->).
  destruct lastErr as [e|]; unfold ret at 1; cbn beta iota.
  - destruct (wait.Steps b =? 1)%Z eqn:Hone.
    + unfold ret. cbn [snd log]. eexists. split; [reflexivity|].
      unfold slept. cbn [fold_right]. lia.
    + apply Z.eqb_neq in Hone. destruct n as [|n]; [cbn in Hsteps; lia|].
      unfold bind at 1.
      destruct (Step_sleep b
                  (mkState w (log st ++ [Looked namespace sa secret (Some e)])))
        as (d & w' & -> & Hdur); try assumption; [lia|].
      cbn beta iota. unfold bind at 1, wait.timeSleep at 1. cbn [world log].
      match goal with
      | |- context [wait.backoffLoop cp fuel ?b' _ ?l' ?st'] =>
          destruct (IH n b' l' st') as (evs & Heq & Hslept);
            try reflexivity; [cbn; lia | cbn; apply truncate_factor_nonneg, Hd | lia |]
      end.
      rewrite Heq. cbn [log].
      exists (Looked namespace sa secret (Some e) :: Slept d :: evs).
      split; [rewrite <- !app_assoc; reflexivity|].
      cbn [wait.Duration] in Hslept. cbn [baseSleeps].
      change (slept (Looked namespace sa secret (Some e) :: Slept d :: evs))
        with (d + slept evs)%Z.
      lia.
  - unfold ret. cbn [snd log]. eexists. split; [reflexivity|].
    unfold slept. cbn [fold_right]. lia.
Qed.

(** Whatever the jitter draws, the nine sleeps of [WaitForClientToken] add up
    to at most twice their jitter-free durations, about 208 seconds. *)
Lemma WaitForClientToken_wait_bound (sa namespace : string) (w : W) :
  (slept (log (snd (WaitForClientToken cp sa namespace (start w))))
   <= 207989017600)%Z.
Proof.
  unfold WaitForClientToken, wait.ExponentialBackoff, bind.
  destruct (backoffLoop_slept namespace sa
              (Z.to_nat (wait.Steps tokenBackoff)) 9 tokenBackoff (None, None)
              (start w))
    as (evs & Heq & Hslept);
    try reflexivity;
    [unfold tokenBackoff, Second; cbn [wait.Duration]; lia|].
  destruct (wait.backoffLoop cp (Z.to_nat (wait.Steps tokenBackoff))
              tokenBackoff (tokenCondition cp namespace sa) (None, None)
              (start w)) as [[[secret lastErr] err] st'].
  cbn [snd] in Heq. cbn beta iota.
  assert (Hlog : forall r : option Secret * option error,
            log (snd (ret (W := W) r st')) = evs) by (intros r; exact Heq).
  change (2 * baseSleeps 9 (wait.Duration tokenBackoff))%Z
    with 207989017600%Z in Hslept.
  destruct (Is_ErrWaitTimeout err); rewrite Hlog; lia.
Qed.

End Sleeps.

(** ** The statements at work on the small control plane *)

Lemma WaitForClientToken_outcome_witness :
  let r := WaitForClientToken fake "cluster-east" "broker-ns" (start (fresh 2)) in
  fst r = (Some (mkSecret "broker-ns" "cluster-east-token-x"), None)
  /\ lookups (log (snd r)) = 3%nat.
Proof.
  destruct (WaitForClientToken_outcome fake "cluster-east" "broker-ns" (fresh 2))
    as [Hfound _].
  destruct (Hfound
              [Looked "broker-ns" "cluster-east" None
                 (Some (StatusError StatusReasonNotFound "not found"));
               Slept 5000000000;
               Looked "broker-ns" "cluster-east" None
                 (Some (StatusError StatusReasonNotFound "not found"));
               Slept 6000000000]
              (Some (mkSecret "broker-ns" "cluster-east-token-x")) []
              eq_refl) as (_ & _ & Hr).
  split; [exact Hr | reflexivity].
Defined.

Lemma provisioning_twice_witness :
  let e1 := Ensure fake (names := upstream) ["connectivity"] true "broker-ns"
              (start (fresh 2)) in
  let e2 := Ensure fake (names := upstream) ["connectivity"] true "broker-ns"
              (start (world (snd e1))) in
  existsb answeredAlreadyExists (log (snd e1)) = false
  /\ existsb answeredAlreadyExists (log (snd e2)) = true
  /\ fst e1 = None /\ fst e2 = None.
Proof.
  destruct (provisioning_twice fake (names := upstream) ["connectivity"] true
              "east" "broker-ns" (fresh 2) (fresh 2)
              eq_refl eq_refl eq_refl eq_refl) as [[[H1 _] [H2 _]] _].
  split; [reflexivity|]. split; [reflexivity|]. split; assumption.
Defined.

Lemma Ensure_admin_role_failure_witness :
  let r := Ensure fake (names := upstream) ["globalnet"] true "broker-ns"
             (start (faulty [(CreateOrUpdateRole "broker-ns" NewBrokerAdminRole,
                              StatusError StatusReasonForbidden "forbidden")])) in
  fst r = Some (withMessage (StatusError StatusReasonForbidden "forbidden")
                  "error creating subctl role").
Proof.
  refine (proj1 (Ensure_admin_role_failure fake (names := upstream)
                   ["globalnet"] true "broker-ns" _
                   (StatusError StatusReasonForbidden "forbidden") _ eq_refl)).
  vm_compute. right. right. right. left. reflexivity.
Defined.

Lemma Ensure_component_dispatch_witness :
  let st := start (faulty [(GatewayEnsure, errorString "no such CRD")]) in
  Ensure fake (names := upstream)
    (["telemetry"] ++ "connectivity" :: ["globalnet"]) true "broker-ns" st
  = (Some (withMessage (errorString "no such CRD")
             "error setting up the connectivity requirements"),
     mkState (world st)
       [Called GatewayEnsure (Some (errorString "no such CRD"))])
  /\ Ensure fake (names := upstream)
       (["connectivity"] ++ "telemetry" :: ["globalnet"]) true "broker-ns"
       (start (fresh 0))
     = Ensure fake (names := upstream)
         (["connectivity"] ++ ["globalnet"]) true "broker-ns"
         (start (fresh 0)).
Proof.
  intros st. split.
  - refine (proj2 (Ensure_component_dispatch fake (names := upstream)
                     ["telemetry"] ["globalnet"] "connectivity" "broker-ns" st)
              st GatewayEnsure
              "error setting up the connectivity requirements"
              (errorString "no such CRD") (world st) eq_refl _ eq_refl).
    left. repeat split.
  - refine (proj1 (Ensure_component_dispatch fake (names := upstream)
                     ["connectivity"] ["globalnet"] "telemetry" "broker-ns"
                     (start (fresh 0)))
              _ _ _ true); discriminate.
Defined.

Lemma CreateSAForCluster_nil_nil_witness :
  fst (CreateSAForCluster fake (names := upstream) "east" "broker-ns"
         (start lookupAlreadyExists))
  = (None, None).
Proof.
  exact (CreateSAForCluster_nil_nil fake (names := upstream) "east" "broker-ns"
           lookupAlreadyExists "broker-ns" "cluster-east" None
           (StatusError StatusReasonAlreadyExists "already exists")
           eq_refl eq_refl).
Defined.

Lemma role_steps_differ_on_AlreadyExists_witness :
  let exists_ := StatusError StatusReasonAlreadyExists "already exists" in
  fst (createBrokerClusterRoleAndDefaultSA fake (names := upstream) "broker-ns"
         (start (faulty [(CreateOrUpdateRole "broker-ns" NewBrokerClusterRole,
                          exists_)])))
  = None
  /\ fst (createBrokerAdministratorRoleAndSA fake (names := upstream)
            "broker-ns"
            (start (faulty [(CreateOrUpdateRole "broker-ns" NewBrokerAdminRole,
                             exists_)])))
     = Some (withMessage exists_ "error creating subctl role").
Proof.
  intros exists_.
  destruct (role_steps_differ_on_AlreadyExists fake (names := upstream)
              "broker-ns"
              (faulty [(CreateOrUpdateRole "broker-ns" NewBrokerClusterRole,
                        exists_)])
              (faulty [(CreateOrUpdateRole "broker-ns" NewBrokerAdminRole,
                        exists_)])
              exists_ exists_ eq_refl)
    as [_ [Hadmin _]].
  - vm_compute. right. left. reflexivity.
  - vm_compute. right. left. reflexivity.
  - split; [reflexivity | exact Hadmin].
Defined.

(** ** The order of the requests *)

Lemma requests_app (l l' : list Event) :
  requests (l ++ l') = requests l ++ requests l'.
Proof. apply flat_map_app. Qed.

Lemma waits_requests (namespace sa : string) (n : nat) (evs : list Event)
    (r : option Secret * option error) :
  waits namespace sa n evs r -> requests evs = [].
Proof. induction 1; cbn; auto. Qed.

Lemma schemaRun_requests (evs : list Event) (err : option error) :
  schemaRun evs err -> Forall (fun rq => isInstaller rq = true) (requests evs).
Proof.
  induction 1 as [|rq evs err Hrq Hrun IH|rq e message Hrq]; cbn.
  - constructor.
  - constructor; assumption.
  - constructor; [assumption | constructor].
Qed.

Lemma clusterRun_succeeded {names : BrokerConstants} (namespace : string)
    (evs : list Event) :
  clusterRun namespace evs None ->
  exists e1 e2 e3,
    fatal e1 = false /\ fatal e2 = false /\ fatal e3 = false
    /\ evs = [Called (ServiceAccountCreate namespace
                        submarinerBrokerClusterDefaultSA) e1;
              Called (CreateOrUpdateRole namespace NewBrokerClusterRole) e2;
              Called (RoleBindingCreate namespace
                        submarinerBrokerClusterDefaultSA
                        submarinerBrokerClusterRole) e3].
Proof.
  intros Hrun.
  inversion Hrun as [e1 F1 Hevs Herr | e1 e2 F1 F2 Hevs Herr
                    | e1 e2 e3 F1 F2 F3 Hevs Herr | e1 e2 e3 F1 F2 F3]; subst.
  - destruct e1; [discriminate Herr | discriminate F1].
  - destruct e2; [discriminate Herr | discriminate F2].
  - destruct e3; [discriminate Herr | discriminate F3].
  - exists e1, e2, e3. auto.
Qed.

Lemma provisionRun_requests {names : BrokerConstants} (namespace : string)
    (evs : list Event) (err : option error) :
  provisionRun namespace evs err ->
  exists k, (1 <= k <= 7)%nat
            /\ requests evs = firstn k (provisioning namespace)
            /\ (lookups evs <> 0%nat -> k = 7%nat).
Proof.
  intros Hrun.
  inversion Hrun as [e0 F0 | e0 aevs aerr F0 Hadmin Hnil
                    | e0 aevs cevs cerr F0 Hadmin Hcluster Hnil
                    | e0 aevs cevs wevs wr F0 Hadmin Hcluster Hwait]; subst.
  - exists 1%nat. repeat split; try lia. intros Hlook. now contradict Hlook.
  - inversion Hadmin; subst; try discriminate Hnil.
    + exists 2%nat. repeat split; try lia. intros Hlook. now contradict Hlook.
    + exists 3%nat. repeat split; try lia. intros Hlook. now contradict Hlook.
    + exists 4%nat. repeat split; try lia. intros Hlook. now contradict Hlook.
  - destruct (adminRun_succeeded _ _ Hadmin) as (a1 & a3 & _ & _ & ->).
    inversion Hcluster; subst; try discriminate Hnil.
    + exists 5%nat. repeat split; try lia. intros Hlook. now contradict Hlook.
    + exists 6%nat. repeat split; try lia. intros Hlook. now contradict Hlook.
    + exists 7%nat. repeat split; try lia.
  - destruct (adminRun_succeeded _ _ Hadmin) as (a1 & a3 & _ & _ & ->).
    destruct (clusterRun_succeeded _ _ Hcluster)
      as (c1 & c2 & c3 & _ & _ & _ & ->).
    exists 7%nat. repeat split; try lia.
    cbn [app requests flat_map].
    change (flat_map _ wevs) with (requests wevs).
    rewrite (waits_requests _ _ _ _ _ Hwait). reflexivity.
Qed.

(** X1. The requests of a run of [Ensure] come in one fixed order: schema
    installers first, then the first k of namespace, admin account, admin
    role, admin binding, default account, cluster role, default binding.  No step is skipped or reordered, and a run that got as far as
    a credential lookup has issued all seven. *)
Theorem Ensure_request_order {W : Type} (cp : ControlPlane W)
    {names : BrokerConstants} (componentArr : list string) (crds : bool)
    (namespace : string) (w : W) :
  let evs := log (snd (Ensure cp componentArr crds namespace (start w))) in
  exists installers k,
    requests evs = installers ++ firstn k (provisioning namespace)
    /\ Forall (fun rq => isInstaller rq = true) installers
    /\ (k <= 7)%nat
    /\ (lookups evs <> 0%nat -> k = 7%nat).
Proof.
  intros evs.
  pose proof (Ensure_trace cp componentArr crds namespace w) as Hrun.
  cbv zeta in Hrun. fold evs in Hrun.
  assert (Hnolook : forall l, onlyCalls l -> lookups l = 0%nat).
  { induction l as [|ev l IH]; intros Hl; [reflexivity|].
    destruct (Hl ev (or_introl eq_refl)) as (rq & e & ->).
    unfold lookups in *. cbn. apply IH. intros ev' Hin. apply Hl. now right. }
  inversion Hrun as [evs0 err0 Hschema Herr | sevs pevs err0 Hschema Hprov].
  - exists (requests evs), 0%nat. rewrite app_nil_r.
    repeat split; try lia; [eapply schemaRun_requests; eassumption|].
    intros Hlook. contradict Hlook. apply Hnolook.
    eapply schemaRun_onlyCalls; eassumption.
  - destruct (provisionRun_requests _ _ _ Hprov) as (k & Hk & Hreq & Hfull).
    exists (requests sevs), k. rewrite requests_app, Hreq.
    repeat split; try lia; [eapply schemaRun_requests; eassumption|].
    intros Hlook. apply Hfull. intros Hzero. apply Hlook.
    pose proof (Hnolook sevs (schemaRun_onlyCalls _ _ Hschema)) as Hs.
    unfold lookups in *. rewrite filter_app, length_app, Hs. exact Hzero.
Qed.

(** ** How a run ends *)

Lemma lookups_app (l l' : list Event) :
  lookups (l ++ l') = (lookups l + lookups l')%nat.
Proof. unfold lookups. rewrite filter_app, length_app. reflexivity. Qed.

Lemma onlyCalls_lookups (l : list Event) : onlyCalls l -> lookups l = 0%nat.
Proof.
  induction l as [|ev l IH]; intros Hl; [reflexivity|].
  destruct (Hl ev (or_introl eq_refl)) as (rq & e & ->).
  unfold lookups in *. cbn. apply IH. intros ev' Hin. apply Hl. now right.
Qed.

Lemma last_in {A : Type} (l : list A) (d : A) : l <> [] -> In (last l d) l.
Proof.
  induction l as [|x l IH]; intros Hne; [contradiction|].
  destruct l as [|y t]; [now left|].
  right. apply IH. discriminate.
Qed.

Lemma waits_last (namespace sa : string) (n : nat) (evs : list Event)
    (r : option Secret * option error) :
  waits namespace sa n evs r ->
  (exists secret,
      last evs (Slept 0) = Looked namespace sa secret None
      /\ r = (secret, None))
  \/ (exists secret e,
        last evs (Slept 0) = Looked namespace sa secret (Some e)
        /\ r = (None, Some e) /\ lookups evs = n).
Proof.
  induction 1 as [n s | s e | n s e d evs r Hw IH].
  - left. exists s. split; reflexivity.
  - right. exists s, e. repeat split; reflexivity.
  - pose proof (waits_nonempty _ _ _ _ _ Hw) as Hne.
    assert (Hlast : last (Looked namespace sa s (Some e) :: Slept d :: evs)
                      (Slept 0) = last evs (Slept 0)).
    { destruct evs; [contradiction | reflexivity]. }
    rewrite Hlast.
    destruct IH as [(s' & Hl & Hr)|(s' & e' & Hl & Hr & Hn)].
    + left. eauto.
    + right. exists s', e'. repeat split; try assumption.
      unfold lookups in *. cbn. now rewrite Hn.
Qed.

Lemma schemaRun_failed_last (evs : list Event) (err : option error) :
  schemaRun evs err -> nonNil err = true ->
  exists rq e message,
    last evs (Slept 0) = Called rq (Some e)
    /\ err = Some (withMessage e message).
Proof.
  induction 1 as [|rq evs err Hrq Hrun IH|rq e message Hrq]; intros Herr.
  - discriminate Herr.
  - destruct (IH Herr) as (rq' & e & message & Hlast & ->).
    exists rq', e, message. split; [|reflexivity].
    destruct evs as [|ev evs]; [discriminate Hlast | exact Hlast].
  - exists rq, e, message. split; reflexivity.
Qed.

Section Endings.
Context {names : BrokerConstants}.

(** The three ways a run of [Ensure] can end. *)
Lemma ensureRun_last (namespace : string) (evs : list Event)
    (err : option error) :
  ensureRun namespace evs err ->
  (exists rq e message,
      last evs (Slept 0) = Called rq (Some e)
      /\ err = Some (withMessage e message))
  \/ (exists secret,
        last evs (Slept 0) = Looked namespace SubmarinerBrokerAdminSA secret None
        /\ err = None)
  \/ (exists secret e,
        last evs (Slept 0)
        = Looked namespace SubmarinerBrokerAdminSA secret (Some e)
        /\ err = Some e /\ lookups evs = 10%nat).
Proof.
  intros Hrun.
  assert (Hfatal : forall e0 message,
    fatal e0 = true -> exists e, e0 = Some e
                                 /\ Wrap e0 message = Some (withMessage e message)).
  { intros [e|] message F; [eauto | discriminate F]. }
  inversion Hrun as [evs0 err0 Hschema Herr | sevs pevs err0 Hschema Hprov];
    subst.
  { left. exact (schemaRun_failed_last _ _ Hschema Herr). }
  assert (Hne : pevs <> []) by (inversion Hprov; discriminate).
  rewrite (last_app_nonempty sevs pevs (Slept 0) Hne).
  inversion Hprov as [e0 F0 | e0 aevs aerr F0 Hadmin Hnil
                     | e0 aevs cevs cerr F0 Hadmin Hcluster Hnil
                     | e0 aevs cevs wevs wr F0 Hadmin Hcluster Hwait]; subst.
  - left. destruct (Hfatal e0 "error creating the broker namespace" F0)
      as (e & -> & ->). do 3 eexists; split; reflexivity.
  - left. inversion Hadmin as [a1 F1 | a1 a2 F1 F2 | a1 a3 F1 F3 | a1 a3 F1 F3];
      subst; try discriminate Hnil.
    + destruct (Hfatal a1 "error creating the broker admin service account" F1)
        as (e & -> & ->). do 3 eexists; split; reflexivity.
    + destruct a2 as [e|]; [|discriminate F2].
      do 3 eexists; split; reflexivity.
    + destruct (Hfatal a3 "error creating the broker rolebinding" F3)
        as (e & -> & ->). do 3 eexists; split; reflexivity.
  - left. destruct (adminRun_succeeded _ _ Hadmin) as (a1 & a3 & _ & _ & ->).
    inversion Hcluster as [c1 F1 | c1 c2 F1 F2 | c1 c2 c3 F1 F2 F3
                          | c1 c2 c3 F1 F2 F3]; subst; try discriminate Hnil.
    + destruct (Hfatal c1 "error creating the default broker service account"
                  F1) as (e & -> & ->). do 3 eexists; split; reflexivity.
    + destruct (Hfatal c2 "error creating broker role" F2) as (e & -> & ->).
      do 3 eexists; split; reflexivity.
    + destruct (Hfatal c3 "error creating the broker rolebinding" F3)
        as (e & -> & ->). do 3 eexists; split; reflexivity.
  - right.
    pose proof (waits_nonempty _ _ _ _ _ Hwait) as Hw.
    assert (Hfront : onlyCalls
                       (sevs ++ Called (NamespaceCreate namespace) e0
                          :: aevs ++ cevs)).
    { apply onlyCalls_app; [eapply schemaRun_onlyCalls; eassumption|].
      apply onlyCalls_cons, onlyCalls_app;
        [eapply adminRun_onlyCalls | eapply clusterRun_onlyCalls];
        eassumption. }
    assert (Hshape : Called (NamespaceCreate namespace) e0
                       :: aevs ++ cevs ++ wevs
                     = (Called (NamespaceCreate namespace) e0 :: aevs ++ cevs)
                         ++ wevs)
      by (cbn [app]; rewrite <- app_assoc; reflexivity).
    rewrite Hshape, app_assoc, lookups_app, (onlyCalls_lookups _ Hfront).
    rewrite last_app_nonempty by exact Hw. cbn [Nat.add].
    destruct (waits_last _ _ _ _ _ Hwait)
      as [(s & Hl & ->)|(s & e & Hl & -> & Hn)].
    + left. eauto.
    + right. exists s, e. repeat split; assumption.
Qed.

End Endings.

(** X2. [Ensure] returns nil exactly when the last thing it did was a lookup
    that found the administrator account's credential; no other run ends
    without an error. *)
Theorem Ensure_nil_iff_credential_seen {W : Type} (cp : ControlPlane W)
    {names : BrokerConstants} (componentArr : list string) (crds : bool)
    (namespace : string) (w : W) :
  let r := Ensure cp componentArr crds namespace (start w) in
  fst r = None
  <-> exists secret,
        last (log (snd r)) (Slept 0)
        = Looked namespace SubmarinerBrokerAdminSA secret None.
Proof.
  intros r.
  pose proof (Ensure_trace cp componentArr crds namespace w) as Hrun.
  cbv zeta in Hrun. fold r in Hrun.
  destruct (ensureRun_last namespace _ _ Hrun)
    as [(rq & e & message & Hl & Herr)
       |[(s & Hl & Herr)|(s & e & Hl & Herr & _)]];
    rewrite Herr, Hl; split.
  - discriminate.
  - intros (s & H). discriminate H.
  - eauto.
  - reflexivity.
  - discriminate.
  - intros (s' & H). discriminate H.
Qed.

(** X3. When [Ensure] returns an error, the last event of the run carries
    its cause: either the last request was answered with an error and
    [Ensure] returns it wrapped in one message, or the tenth lookup of the
    administrator credential failed and [Ensure] returns its error as it is,
    without wrapping. *)
Theorem Ensure_error_is_last_answer {W : Type} (cp : ControlPlane W)
    {names : BrokerConstants} (componentArr : list string) (crds : bool)
    (namespace : string) (w : W) (err : error) :
  let r := Ensure cp componentArr crds namespace (start w) in
  fst r = Some err ->
  (exists rq e message,
      last (log (snd r)) (Slept 0) = Called rq (Some e)
      /\ err = withMessage e message)
  \/ (exists secret,
        last (log (snd r)) (Slept 0)
        = Looked namespace SubmarinerBrokerAdminSA secret (Some err)
        /\ lookups (log (snd r)) = 10%nat).
Proof.
  intros r Hres.
  pose proof (Ensure_trace cp componentArr crds namespace w) as Hrun.
  cbv zeta in Hrun. fold r in Hrun. rewrite Hres in Hrun.
  destruct (ensureRun_last namespace _ _ Hrun)
    as [(rq & e & message & Hl & Herr)
       |[(s & Hl & Herr)|(s & e & Hl & Herr & Hn)]].
  - left. injection Herr as ->. eauto.
  - discriminate Herr.
  - right. injection Herr as ->. eauto.
Qed.

(** X4. [Ensure] starts the token wait only after a clean provisioning: in a
    run with a credential lookup, no request was answered with an error
    other than AlreadyExists, and the schema installers and the
    administrator role were answered without any error. *)
Theorem Ensure_waits_after_clean_provisioning {W : Type}
    (cp : ControlPlane W) {names : BrokerConstants}
    (componentArr : list string) (crds : bool) (namespace : string) (w : W) :
  let evs := log (snd (Ensure cp componentArr crds namespace (start w))) in
  lookups evs <> 0%nat ->
  forall rq err,
    In (Called rq err) evs ->
    fatal err = false
    /\ (isInstaller rq = true
        \/ rq = CreateOrUpdateRole namespace NewBrokerAdminRole ->
        err = None).
Proof.
  intros evs Hlook rq err Hin.
  pose proof (Ensure_trace cp componentArr crds namespace w) as Hrun.
  cbv zeta in Hrun. fold evs in Hrun, Hlook, Hin.
  inversion Hrun as [evs0 err0 Hschema Herr | sevs pevs err0 Hschema Hprov];
    subst.
  { contradict Hlook. apply onlyCalls_lookups.
    eapply schemaRun_onlyCalls; eassumption. }
  match goal with H : sevs ++ pevs = evs |- _ => rewrite <- H in *; clear H end.
  rewrite lookups_app, (onlyCalls_lookups _ (schemaRun_onlyCalls _ _ Hschema))
    in Hlook.
  cbn [Nat.add] in Hlook.
  apply in_app_or in Hin. destruct Hin as [Hin|Hin].
  { destruct (schemaRun_installed _ _ Hschema eq_refl _ Hin) as (rq' & Hrq & Heq).
    injection Heq as -> ->. split; [reflexivity | intros _; reflexivity]. }
  inversion Hprov as [e0 F0 | e0 aevs aerr F0 Hadmin Hnil
                     | e0 aevs cevs cerr F0 Hadmin Hcluster Hnil
                     | e0 aevs cevs wevs wr F0 Hadmin Hcluster Hwait]; subst.
  - contradict Hlook. reflexivity.
  - contradict Hlook. apply onlyCalls_lookups, onlyCalls_cons.
    eapply adminRun_onlyCalls; eassumption.
  - contradict Hlook. apply onlyCalls_lookups, onlyCalls_cons, onlyCalls_app;
      [eapply adminRun_onlyCalls | eapply clusterRun_onlyCalls]; eassumption.
  - destruct (adminRun_succeeded _ _ Hadmin) as (a1 & a3 & Fa1 & Fa3 & ->).
    destruct (clusterRun_succeeded _ _ Hcluster)
      as (c1 & c2 & c3 & Fc1 & Fc2 & Fc3 & ->).
    in_cases Hin;
      try (exfalso; eapply waits_no_call; eassumption);
      injection Hin as <- <-;
      (split; [assumption || reflexivity
              | intros [Hi|Hi]; [discriminate Hi | try discriminate Hi;
                                                   reflexivity]]).
Qed.

(** ** Enrolling a cluster, further *)

Lemma waits_found_in (namespace sa : string) (n : nat) (evs : list Event)
    (r : option Secret * option error) :
  waits namespace sa n evs r ->
  forall namespace' sa' secret,
    In (Looked namespace' sa' secret None) evs -> r = (secret, None).
Proof.
  induction 1 as [n s | s e | n s e d evs r Hw IH];
    intros namespace' sa' secret Hin.
  - destruct Hin as [Heq|[]]. injection Heq as _ _ ->. reflexivity.
  - destruct Hin as [Heq|[]]. discriminate Heq.
  - destruct Hin as [Heq|[Heq|Hin]]; try discriminate Heq.
    exact (IH _ _ _ Hin).
Qed.

Lemma waits_counts (namespace sa : string) (n : nat) (evs : list Event)
    (r : option Secret * option error) :
  waits namespace sa n evs r ->
  (1 <= lookups evs <= n)%nat /\ S (sleeps evs) = lookups evs
  /\ (fst r = None \/ snd r = None).
Proof.
  induction 1 as [n s | s e | n s e d evs r Hw IH].
  - unfold lookups, sleeps. cbn. repeat split; try lia. now right.
  - unfold lookups, sleeps. cbn. repeat split; try lia. now left.
  - destruct IH as (Hl & Hs & Hr). unfold lookups, sleeps in *. cbn.
    repeat split; try lia. exact Hr.
Qed.

Lemma enrolRun_requests {names : BrokerConstants}
    (clusterID namespace : string) (evs : list Event)
    (r : option Secret * option error) :
  enrolRun clusterID namespace evs r ->
  (exists k, (1 <= k <= 2)%nat
             /\ requests evs = firstn k (enrolment clusterID namespace)
             /\ (lookups evs <> 0%nat -> k = 2%nat))
  /\ (forall namespace' sa' secret err,
         In (Looked namespace' sa' secret err) evs ->
         namespace' = namespace /\ sa' = ClusterSAName clusterID)
  /\ (forall pre namespace' sa' secret err post,
         evs = pre ++ Looked namespace' sa' secret err :: post ->
         requests pre = enrolment clusterID namespace
         /\ requests post = []).
Proof.
  intros Hrun.
  inversion Hrun as [e1 F1 | e1 e2 F1 F2 | e1 e2 wevs wr F1 F2 Hwait]; subst.
  - split; [|split].
    + exists 1%nat. repeat split; try lia. intros Hlook. now contradict Hlook.
    + intros ? ? ? ? Hin. in_cases Hin. discriminate Hin.
    + intros pre ? ? ? ? post Heq.
      destruct pre as [|x [|y pre]]; discriminate Heq.
  - split; [|split].
    + exists 2%nat. repeat split; lia.
    + intros ? ? ? ? Hin. in_cases Hin; discriminate Hin.
    + intros pre ? ? ? ? post Heq.
      destruct pre as [|x [|y [|z pre]]]; discriminate Heq.
  - pose proof (waits_requests _ _ _ _ _ Hwait) as Hnone.
    split; [|split].
    + exists 2%nat. repeat split; try lia.
      cbn [requests flat_map app]. change (flat_map _ wevs) with (requests wevs).
      rewrite Hnone. reflexivity.
    + intros namespace' sa' secret err Hin.
      destruct Hin as [Heq|[Heq|Hin]]; try discriminate Heq.
      destruct (waits_events _ _ _ _ _ Hwait _ Hin) as [(s & e & Heq)|(d & Heq)];
        [|discriminate Heq].
      injection Heq as -> -> _ _. split; reflexivity.
    + intros pre namespace' sa' secret err post Heq.
      destruct (calls_are_a_prefix
                  [Called (ServiceAccountCreate namespace
                             (ClusterSAName clusterID)) e1;
                   Called (RoleBindingCreate namespace
                             (ClusterSAName clusterID)
                             submarinerBrokerClusterRole) e2])
        with (pre := pre) (namespace := namespace') (sa := sa')
             (secret := secret) (err := err) (post := post) (rest := wevs)
        as (pre' & -> & Hwevs).
      * do 2 apply onlyCalls_cons. apply onlyCalls_nil.
      * symmetry. exact Heq.
      * rewrite Hwevs, requests_app in Hnone.
        apply app_eq_nil in Hnone. destruct Hnone as [Hpre' Hpost].
        rewrite requests_app, Hpre', app_nil_r.
        split; [reflexivity | exact Hpost].
Qed.

(** X5. [CreateSAForCluster] asks for two things only, in this order: the
    service account named after the cluster, then its binding to the broker
    cluster role; it issues no other request.  Every credential lookup it
    makes is for that account in the given namespace, and at every lookup
    both requests are already out and no request follows: what comes before
    the lookup holds exactly the two requests, what comes after holds
    none. *)
Theorem CreateSAForCluster_requests {W : Type} (cp : ControlPlane W)
    {names : BrokerConstants} (clusterID namespace : string) (w : W) :
  let evs := log (snd (CreateSAForCluster cp clusterID namespace (start w))) in
  (exists k, (1 <= k <= 2)%nat
             /\ requests evs = firstn k (enrolment clusterID namespace)
             /\ (lookups evs <> 0%nat -> k = 2%nat))
  /\ (forall namespace' sa' secret err,
         In (Looked namespace' sa' secret err) evs ->
         namespace' = namespace /\ sa' = ClusterSAName clusterID)
  /\ (forall pre namespace' sa' secret err post,
         evs = pre ++ Looked namespace' sa' secret err :: post ->
         requests pre = enrolment clusterID namespace
         /\ requests post = []).
Proof.
  intros evs.
  exact (enrolRun_requests clusterID namespace _ _
           (enrol_trace cp clusterID namespace w)).
Qed.

(** X6. When a lookup of [CreateSAForCluster] finds the credential, the
    function returns that very secret and a nil error. *)
Theorem CreateSAForCluster_returns_found_secret {W : Type}
    (cp : ControlPlane W) {names : BrokerConstants}
    (clusterID namespace : string) (w : W)
    (namespace' sa' : string) (secret : option Secret) :
  let r := CreateSAForCluster cp clusterID namespace (start w) in
  In (Looked namespace' sa' secret None) (log (snd r)) ->
  fst r = (secret, None).
Proof.
  intros r Hin.
  pose proof (enrol_trace cp clusterID namespace w) as Hrun.
  cbv zeta in Hrun. fold r in Hrun.
  inversion Hrun as [e1 F1 Hevs Hres | e1 e2 F1 F2 Hevs Hres
                    | e1 e2 wevs wr F1 F2 Hwait Hevs Hres];
    rewrite <- Hevs in Hin.
  - in_cases Hin. discriminate Hin.
  - in_cases Hin; discriminate Hin.
  - destruct Hin as [Heq|[Heq|Hin]]; try discriminate Heq.
    rewrite (waits_found_in _ _ _ _ _ Hwait _ _ _ Hin). reflexivity.
Qed.

(** X7. When the token wait of [CreateSAForCluster] runs out on an error that
    is not AlreadyExists, the function returns a nil secret and that error
    wrapped as "error getting cluster sa token"; ten lookups were made. *)
Theorem CreateSAForCluster_wraps_wait_error {W : Type} (cp : ControlPlane W)
    {names : BrokerConstants} (clusterID namespace : string) (w : W)
    (namespace' sa' : string) (secret : option Secret) (e : error) :
  let r := CreateSAForCluster cp clusterID namespace (start w) in
  last (log (snd r)) (Slept 0) = Looked namespace' sa' secret (Some e) ->
  IsAlreadyExists (Some e) = false ->
  fst r = (None, Some (withMessage e "error getting cluster sa token"))
  /\ lookups (log (snd r)) = 10%nat.
Proof.
  intros r Hlast Hexists.
  pose proof (enrol_trace cp clusterID namespace w) as Hrun.
  cbv zeta in Hrun. fold r in Hrun.
  inversion Hrun as [e1 F1 Hevs Hres | e1 e2 F1 F2 Hevs Hres
                    | e1 e2 wevs wr F1 F2 Hw Hevs Hres];
    rewrite <- Hevs in Hlast.
  - discriminate Hlast.
  - discriminate Hlast.
  - match goal with
    | |- _ /\ lookups (?a :: ?b :: wevs) = _ =>
        change (lookups (a :: b :: wevs)) with (lookups wevs)
    end.
    pose proof (waits_nonempty _ _ _ _ _ Hw) as Hne.
    destruct wevs as [|x wevs]; [contradiction|].
    change (last (x :: wevs) (Slept 0)
            = Looked namespace' sa' secret (Some e)) in Hlast.
    destruct (waits_last _ _ _ _ _ Hw)
      as [(s & Hl & Hr)|(s & e' & Hl & Hr & Hn)];
      rewrite Hl in Hlast; [discriminate Hlast|].
    injection Hlast as _ _ _ ->. rewrite Hr. cbn [fst snd].
    unfold fatal. rewrite Hexists. split; [reflexivity | exact Hn].
Qed.

(** ** The attempts of the token wait *)

Lemma waits_head (namespace sa : string) (n : nat) (evs : list Event)
    (r : option Secret * option error) :
  waits namespace sa n evs r ->
  exists secret err rest, evs = Looked namespace sa secret err :: rest.
Proof. destruct 1; eexists _, _, _; reflexivity. Qed.

Lemma waits_alternate (namespace sa : string) (n : nat) (evs : list Event)
    (r : option Secret * option error) :
  waits namespace sa n evs r ->
  forall pre ev ev' post,
    evs = pre ++ ev :: ev' :: post ->
    (exists secret e d, ev = Looked namespace sa secret (Some e)
                        /\ ev' = Slept d)
    \/ (exists d secret err, ev = Slept d
                             /\ ev' = Looked namespace sa secret err).
Proof.
  induction 1 as [n s | s e | n s e d evs r Hw IH];
    intros pre ev ev' post Heq.
  - destruct pre as [|x [|y pre]]; discriminate Heq.
  - destruct pre as [|x [|y pre]]; discriminate Heq.
  - destruct pre as [|x [|y pre]]; cbn in Heq.
    + injection Heq as <- <- _. left. eauto.
    + injection Heq as _ <- Heq.
      destruct (waits_head _ _ _ _ _ Hw) as (s' & e' & rest & Hevs).
      rewrite Hevs in Heq. injection Heq as <- _. right. eauto.
    + injection Heq as _ _ Heq. exact (IH _ _ _ _ Heq).
Qed.

(** X8. [WaitForClientToken] makes between one and ten lookups, all for the
    account and namespace it was given, and sleeps exactly once between two
    lookups: the run starts and ends with a lookup, a failed lookup that is
    not the last event is followed by a sleep, and a sleep by a lookup.  It
    never returns a secret together with an error. *)
Theorem WaitForClientToken_attempts {W : Type} (cp : ControlPlane W)
    (submarinerBrokerSA namespace : string) (w : W) :
  let r := WaitForClientToken cp submarinerBrokerSA namespace (start w) in
  (1 <= lookups (log (snd r)) <= 10)%nat
  /\ S (sleeps (log (snd r))) = lookups (log (snd r))
  /\ (exists secret err,
         hd (Slept 0) (log (snd r))
         = Looked namespace submarinerBrokerSA secret err)
  /\ (exists secret err,
         last (log (snd r)) (Slept 0)
         = Looked namespace submarinerBrokerSA secret err)
  /\ (forall pre ev ev' post,
         log (snd r) = pre ++ ev :: ev' :: post ->
         (exists secret e d,
             ev = Looked namespace submarinerBrokerSA secret (Some e)
             /\ ev' = Slept d)
         \/ (exists d secret err,
               ev = Slept d
               /\ ev' = Looked namespace submarinerBrokerSA secret err))
  /\ (fst (fst r) = None \/ snd (fst r) = None).
Proof.
  intros r. pose proof (wait_trace cp submarinerBrokerSA namespace w) as Hw.
  cbv zeta in Hw. fold r in Hw.
  destruct (waits_counts _ _ _ _ _ Hw) as (Hl & Hs & Hr).
  repeat split; try lia; try assumption.
  - inversion Hw; eexists _, _; reflexivity.
  - destruct (waits_last _ _ _ _ _ Hw)
      as [(s & Hlast & _)|(s & e & Hlast & _)]; eauto.
  - exact (waits_alternate _ _ _ _ _ Hw).
Qed.

(** ** How long the token wait sleeps, further *)

Lemma truncate_factor_grows (d : Z) :
  (0 <= d)%Z -> (d <= wait.truncate (inject_Z d * (12 # 10))%Q)%Z.
Proof.
  intros Hd. unfold wait.truncate. cbn.
  rewrite Z.quot_div_nonneg by lia.
  apply Z.div_le_lower_bound; lia.
Qed.

Section SleepBounds.
Context {W : Type} (cp : ControlPlane W) (Hdraws : drawsInUnit cp).

Lemma backoffLoop_sleeps (namespace sa : string) :
  forall (fuel n : nat) (b : wait.Backoff)
         (l : option Secret * option error) (st : State W),
    wait.Steps b = Z.of_nat (S n) -> wait.Cap b = 0%Z ->
    wait.Factor b = (12 # 10)%Q -> wait.Jitter b = 1%Q ->
    (0 <= wait.Duration b)%Z -> (S n <= fuel)%nat ->
    exists evs,
      log (snd (wait.backoffLoop cp fuel b (tokenCondition cp namespace sa)
                  l st))
      = log st ++ evs
      /\ ((forall secret, ~ In (Looked namespace sa secret None) evs) ->
          (baseSleeps n (wait.Duration b) <= slept evs)%Z)
      /\ (forall d, In (Slept d) evs -> (wait.Duration b <= d)%Z).
Proof.
  induction fuel as [|fuel IH];
    intros n b l st Hsteps Hcap Hfactor Hjitter Hd Hfuel; [lia|].
  cbn [wait.backoffLoop].
  destruct (wait.Steps b >? 0)%Z eqn:Hpos;
    [|rewrite Z.gtb_ltb in Hpos; apply Z.ltb_ge in Hpos; lia].
  unfold bind at 1. unfold tokenCondition at 1. unfold bind at 1.
  destruct (lookup_run cp namespace sa st) as (secret & lastErr & w & ->).
  destruct lastErr as [e|]; unfold ret at 1; cbn beta iota.
  - destruct (wait.Steps b =? 1)%Z eqn:Hone.
    + apply Z.eqb_eq in Hone. assert (n = O) by lia. subst n.
      unfold ret. cbn [snd log]. eexists. split; [reflexivity|].
      split; [intros _; unfold slept; cbn; lia|].
      intros d [Heq|[]]. discriminate Heq.
    + apply Z.eqb_neq in Hone. destruct n as [|n]; [cbn in Hsteps; lia|].
      unfold bind at 1.
      destruct (Step_sleep cp Hdraws b
                  (mkState w (log st ++ [Looked namespace sa secret (Some e)])))
        as (d & w' & -> & Hdur); try assumption; [lia|].
      cbn beta iota. unfold bind at 1, wait.timeSleep at 1. cbn [world log].
      match goal with
      | |- context [wait.backoffLoop cp fuel ?b' _ ?l' ?st'] =>
          destruct (IH n b' l' st') as (evs & Heq & Hlow & Heach);
            try reflexivity;
            [cbn; lia | cbn; apply truncate_factor_nonneg, Hd | lia |]
      end.
      rewrite Heq. cbn [log].
      exists (Looked namespace sa secret (Some e) :: Slept d :: evs).
      split; [rewrite <- !app_assoc; reflexivity|].
      cbn [wait.Duration] in Hlow, Heach.
      pose proof (truncate_factor_grows _ Hd) as Hgrow.
      split;
        [|intros d' [Hd'|[Hd'|Hin]];
          [discriminate Hd' | injection Hd' as <-; lia
          | specialize (Heach d' Hin); lia]].
      intros Hnone. cbn [baseSleeps].
      change (slept (Looked namespace sa secret (Some e) :: Slept d :: evs))
        with (d + slept evs)%Z.
      assert (baseSleeps n
                (wait.truncate (inject_Z (wait.Duration b) * (12 # 10))%Q)
              <= slept evs)%Z.
      { apply Hlow. intros s Hin. apply (Hnone s). right. right. exact Hin. }
      lia.
  - unfold ret. cbn [snd log]. eexists. split; [reflexivity|].
    split; [|intros d [Heq|[]]; discriminate Heq].
    intros Hnone. exfalso. apply (Hnone secret). now left.
Qed.

(** X9. With jitter draws in the unit interval, the sleeps of
    [WaitForClientToken] add up to 207.99 seconds at most; every single
    sleep lasts five seconds at least; and a wait that gives up without a
    successful lookup has slept 103.99 seconds at least. *)
Theorem WaitForClientToken_sleep_bounds (sa namespace : string) (w : W) :
  let evs := log (snd (WaitForClientToken cp sa namespace (start w))) in
  (slept evs <= 207989017600)%Z
  /\ (forall d, In (Slept d) evs -> (5 * Second <= d)%Z)
  /\ ((forall secret, ~ In (Looked namespace sa secret None) evs) ->
      (103994508800 <= slept evs)%Z).
Proof.
  intros evs. split; [exact (WaitForClientToken_wait_bound cp Hdraws sa namespace w)|].
  subst evs. unfold WaitForClientToken, wait.ExponentialBackoff, bind.
  destruct (backoffLoop_sleeps namespace sa
              (Z.to_nat (wait.Steps tokenBackoff)) 9 tokenBackoff (None, None)
              (start w))
    as (evs & Heq & Hlow & Heach);
    try reflexivity;
    [unfold tokenBackoff, Second; cbn [wait.Duration]; lia|].
  destruct (wait.backoffLoop cp (Z.to_nat (wait.Steps tokenBackoff))
              tokenBackoff (tokenCondition cp namespace sa) (None, None)
              (start w)) as [[[secret lastErr] err] st'].
  cbn [snd] in Heq. cbn beta iota.
  assert (Hlog : forall r : option Secret * option error,
            log (snd (ret (W := W) r st')) = evs) by (intros r; exact Heq).
  change (baseSleeps 9 (wait.Duration tokenBackoff))
    with 103994508800%Z in Hlow.
  change (wait.Duration tokenBackoff) with (5 * Second)%Z in Heach.
  destruct (Is_ErrWaitTimeout err); rewrite Hlog; split; assumption.
Qed.

End SleepBounds.

(** ** How often the installers are called *)

Lemma installerCalls_app (l l' : list Event) :
  installerCalls (l ++ l') = (installerCalls l + installerCalls l')%nat.
Proof. unfold installerCalls. rewrite filter_app, length_app. reflexivity. Qed.

Lemma installerCalls_none (l : list Event) :
  (forall rq e, In (Called rq e) l -> isInstaller rq = false) ->
  installerCalls l = 0%nat.
Proof.
  induction l as [|ev l IH]; intros Hl; [reflexivity|].
  unfold installerCalls in *. cbn [filter].
  destruct ev as [rq e| |].
  - rewrite (Hl rq e (or_introl eq_refl)). apply IH.
    intros rq' e' Hin. apply (Hl rq' e'). now right.
  - apply IH. intros rq' e' Hin. apply (Hl rq' e'). now right.
  - apply IH. intros rq' e' Hin. apply (Hl rq' e'). now right.
Qed.

Section InstallerCount.
Context {W : Type} (cp : ControlPlane W) {names : BrokerConstants}.

Lemma ensureCRDs_count (componentArr : list string) :
  forall st : State W,
  exists evs,
    log (snd (ensureCRDs cp componentArr st)) = log st ++ evs
    /\ (installerCalls evs <= List.length (filter recognized componentArr))%nat
    /\ (fst (ensureCRDs cp componentArr st) = None ->
        installerCalls evs = List.length (filter recognized componentArr)).
Proof.
  induction componentArr as [|c rest IH]; intros st.
  - exists []. rewrite app_nil_r. cbn. repeat split; lia.
  - assert (Hinstall : forall rq message,
      isInstaller rq = true ->
      exists evs,
        log (snd ((err <- call cp rq ;;
                   if nonNil err then ret (Wrap err message)
                   else ensureCRDs cp rest) st)) = log st ++ evs
        /\ (installerCalls evs
            <= S (List.length (filter recognized rest)))%nat
        /\ (fst ((err <- call cp rq ;;
                  if nonNil err then ret (Wrap err message)
                  else ensureCRDs cp rest) st) = None ->
            installerCalls evs = S (List.length (filter recognized rest)))).
    { intros rq message Hrq. unfold bind at 1 2.
      destruct (call_run cp rq st) as ([e|] & w' & ->); cbn [nonNil].
      - exists [Called rq (Some e)]. unfold ret. cbn [snd fst log Wrap].
        split; [reflexivity|]. unfold installerCalls. cbn [filter].
        rewrite Hrq. cbn. split; [lia | discriminate].
      - destruct (IH (mkState w' (log st ++ [Called rq None])))
          as (evs & Heq & Hle & Hnil).
        exists (Called rq None :: evs). rewrite Heq. cbn [log].
        split; [rewrite <- app_assoc; reflexivity|].
        change (Called rq None :: evs) with ([Called rq None] ++ evs).
        rewrite installerCalls_app.
        assert (Hone : installerCalls [Called rq None] = 1%nat)
          by (unfold installerCalls; cbn [filter]; rewrite Hrq; reflexivity).
        rewrite Hone. split; [lia|]. intros Hres. rewrite (Hnil Hres). lia. }
    cbn [ensureCRDs filter].
    destruct (String.eqb c Connectivity) eqn:E1.
    { replace (recognized c) with true by (unfold recognized; now rewrite E1).
      now apply Hinstall. }
    destruct (String.eqb c ServiceDiscovery) eqn:E2.
    { replace (recognized c) with true
        by (unfold recognized; now rewrite E1, E2).
      now apply Hinstall. }
    destruct (String.eqb c Globalnet) eqn:E3.
    { replace (recognized c) with true
        by (unfold recognized; now rewrite E1, E2, E3).
      now apply Hinstall. }
    replace (recognized c) with false
      by (unfold recognized; now rewrite E1, E2, E3).
    apply IH.
Qed.

(** X10. With [crds] set, [Ensure] calls an installer once for each
    component tag it recognizes, repeated tags included, and never for
    another tag: the installer calls number at most the recognized tags of
    the list, and exactly that many in every run that got as far as the
    namespace. *)
Theorem Ensure_installer_calls (componentArr : list string)
    (namespace : string) (w : W) :
  let evs := log (snd (Ensure cp componentArr true namespace (start w))) in
  (installerCalls evs <= List.length (filter recognized componentArr))%nat
  /\ forall e, In (Called (NamespaceCreate namespace) e) evs ->
               installerCalls evs
               = List.length (filter recognized componentArr).
Proof.
  intros evs. subst evs. rewrite Ensure_after_crds.
  destruct (ensureCRDs_count componentArr (start w))
    as (sevs & Heq & Hle & Hnil).
  destruct (ensureCRDs_sound cp componentArr (start w))
    as (err & w' & sevs' & Hrun & Hschema).
  rewrite Hrun in Heq, Hnil |- *. unfold start in *.
  cbn [snd fst log app] in *. subst sevs'.
  destruct (nonNil err) eqn:Herr.
  - split; [exact Hle|].
    intros e Hin.
    destruct (schemaRun_events _ _ Hschema _ Hin) as (rq & e' & Hrq & Heq).
    injection Heq as <- _. discriminate Hrq.
  - apply nonNil_false in Herr. subst err.
    destruct (provision_sound cp namespace (mkState w' sevs))
      as (err & w'' & pevs & -> & Hprov).
    cbn [snd log app]. rewrite installerCalls_app.
    rewrite (installerCalls_none pevs (provisionRun_calls _ _ _ Hprov)).
    rewrite Nat.add_0_r, (Hnil eq_refl). split; [lia | reflexivity].
Qed.

End InstallerCount.

(** ** AlreadyExists is as good as success *)

Section Lenient.
Context {W : Type} (cp : ControlPlane W) {names : BrokerConstants}.

Lemma sim_ret {A : Type} (R : A -> A -> Prop) (a a' : A) :
  R a a' -> sim (W := W) R (ret a) (ret a').
Proof. intros Ha st st' Hw. split; assumption. Qed.

Lemma sim_bind {A B : Type} (R : A -> A -> Prop) (S : B -> B -> Prop)
    (m m' : M W A) (k k' : A -> M W B) :
  sim R m m' -> (forall a a', R a a' -> sim S (k a) (k' a')) ->
  sim S (bind m k) (bind m' k').
Proof.
  intros Hm Hk st st' Hw. unfold bind.
  destruct (Hm st st' Hw) as [Ha Hw'].
  destruct (m st) as [a st1], (m' st') as [a' st1'].
  exact (Hk a a' Ha st1 st1' Hw').
Qed.

Lemma sim_call (rq : Request) :
  sim (fun e e' => e' = if absorbed rq then absorb e else e)
    (call cp rq) (call (lenient cp) rq).
Proof.
  intros [w l] [w' l'] Hw. cbn [world] in Hw. subst w'.
  unfold call. cbn [world serve lenient].
  destruct (serve cp rq w) as [e w1]. split; reflexivity.
Qed.

Lemma sim_lookup (namespace sa : string) :
  sim eq (getClientTokenSecret cp namespace sa)
    (getClientTokenSecret (lenient cp) namespace sa).
Proof.
  intros [w l] [w' l'] Hw. cbn [world] in Hw. subst w'.
  unfold getClientTokenSecret. cbn [world GetClientTokenSecret lenient].
  destruct (GetClientTokenSecret cp namespace sa w) as [r w1].
  split; reflexivity.
Qed.

Lemma sim_Step (b : wait.Backoff) :
  sim eq (wait.Step cp b) (wait.Step (lenient cp) b).
Proof.
  assert (Hjitter : forall d f,
    sim eq (wait.JitterDuration cp d f) (wait.JitterDuration (lenient cp) d f)).
  { intros d f [w l] [w' l'] Hw. cbn [world] in Hw. subst w'.
    unfold wait.JitterDuration, wait.randFloat64, bind, ret.
    cbn [world Float64 lenient].
    destruct (Float64 cp w) as [r w1]. split; reflexivity. }
  assert (Hdraw : forall d f (b' : wait.Backoff),
    sim eq (x <- wait.JitterDuration cp d f ;; ret (x, b'))
      (x <- wait.JitterDuration (lenient cp) d f ;; ret (x, b'))).
  { intros d f b'. eapply sim_bind; [apply Hjitter|].
    intros a a' <-. now apply sim_ret. }
  unfold wait.Step.
  destruct (wait.Steps b <? 1)%Z; destruct (wait.Qpositive (wait.Jitter b));
    try apply Hdraw; now apply sim_ret.
Qed.

Lemma sim_sleep (d : Z) :
  sim eq (wait.timeSleep cp d) (wait.timeSleep (lenient cp) d).
Proof.
  intros [w l] [w' l'] Hw. cbn [world] in Hw. subst w'.
  split; reflexivity.
Qed.

Lemma sim_backoffLoop (namespace sa : string) :
  forall (fuel : nat) (b : wait.Backoff) (l : option Secret * option error),
    sim eq
      (wait.backoffLoop cp fuel b (tokenCondition cp namespace sa) l)
      (wait.backoffLoop (lenient cp) fuel b
         (tokenCondition (lenient cp) namespace sa) l).
Proof.
  induction fuel as [|fuel IH]; intros b l; cbn [wait.backoffLoop].
  - now apply sim_ret.
  - destruct (wait.Steps b >? 0)%Z; [|now apply sim_ret].
    eapply sim_bind with (R := eq).
    + unfold tokenCondition. eapply sim_bind; [apply sim_lookup|].
      intros r r' <-. destruct r as [secret [e|]]; now apply sim_ret.
    + intros r r' <-. destruct r as [l' [ok [e|]]]; [now apply sim_ret|].
      destruct ok; [now apply sim_ret|].
      destruct (wait.Steps b =? 1)%Z; [now apply sim_ret|].
      eapply sim_bind; [apply sim_Step|].
      intros s s' <-. destruct s as [d b'].
      eapply sim_bind; [apply sim_sleep|].
      intros _ _ _. apply IH.
Qed.

Lemma sim_WaitForClientToken (sa namespace : string) :
  sim eq (WaitForClientToken cp sa namespace)
    (WaitForClientToken (lenient cp) sa namespace).
Proof.
  unfold WaitForClientToken, wait.ExponentialBackoff.
  eapply sim_bind; [apply sim_backoffLoop|].
  intros r r' <-. destruct r as [[secret lastErr] err].
  destruct (Is_ErrWaitTimeout err); now apply sim_ret.
Qed.

(** The guard [err != nil && !IsAlreadyExists(err)] cannot tell an
    AlreadyExists answer from a nil one. *)
Lemma sim_guard {A : Type} (failure : option error -> A)
    (k k' : M W A) (e e' : option error) :
  e' = absorb e ->
  sim eq k k' ->
  sim eq
    (if nonNil e && negb (IsAlreadyExists e) then ret (failure e) else k)
    (if nonNil e' && negb (IsAlreadyExists e') then ret (failure e') else k').
Proof.
  intros -> Hk. unfold absorb.
  destruct (IsAlreadyExists e) eqn:Hexists.
  - rewrite andb_false_r. cbn. exact Hk.
  - rewrite Hexists. destruct (nonNil e); cbn; [now apply sim_ret | exact Hk].
Qed.

Lemma sim_admin (namespace : string) :
  sim eq (createBrokerAdministratorRoleAndSA cp namespace)
    (createBrokerAdministratorRoleAndSA (lenient cp) namespace).
Proof.
  unfold createBrokerAdministratorRoleAndSA, CreateNewBrokerSA,
    CreateOrUpdateBrokerAdminRole, CreateNewBrokerRoleBinding.
  eapply sim_bind; [apply sim_call|]. intros e e' He. cbn in He.
  eapply sim_guard with (failure := fun err => Wrap err _);
    [exact He|].
  eapply sim_bind; [apply sim_call|]. cbn [absorbed]. intros e2 e2' ->.
  destruct (nonNil e2); [now apply sim_ret|].
  eapply sim_bind; [apply sim_call|]. intros e3 e3' He3. cbn in He3.
  eapply sim_guard with (failure := fun err => Wrap err _);
    [exact He3 | now apply sim_ret].
Qed.

Lemma sim_cluster (namespace : string) :
  sim eq (createBrokerClusterRoleAndDefaultSA cp namespace)
    (createBrokerClusterRoleAndDefaultSA (lenient cp) namespace).
Proof.
  unfold createBrokerClusterRoleAndDefaultSA, CreateNewBrokerSA,
    CreateOrUpdateClusterBrokerRole, CreateNewBrokerRoleBinding.
  eapply sim_bind; [apply sim_call|]. intros e e' He. cbn in He.
  eapply sim_guard with (failure := fun err => Wrap err _);
    [exact He|].
  eapply sim_bind; [apply sim_call|]. intros e2 e2' He2. cbn in He2.
  eapply sim_guard with (failure := fun err => Wrap err _);
    [exact He2|].
  eapply sim_bind; [apply sim_call|]. intros e3 e3' He3. cbn in He3.
  eapply sim_guard with (failure := fun err => Wrap err _);
    [exact He3 | now apply sim_ret].
Qed.

Lemma sim_ensureCRDs (componentArr : list string) :
  sim eq (ensureCRDs cp componentArr) (ensureCRDs (lenient cp) componentArr).
Proof.
  induction componentArr as [|c rest IH]; cbn [ensureCRDs].
  - now apply sim_ret.
  - assert (Hinstall : forall rq message,
      absorbed rq = false ->
      sim eq
        (err <- call cp rq ;;
         if nonNil err then ret (Wrap err message) else ensureCRDs cp rest)
        (err <- call (lenient cp) rq ;;
         if nonNil err then ret (Wrap err message)
         else ensureCRDs (lenient cp) rest)).
    { intros rq message Hrq. eapply sim_bind; [apply sim_call|].
      rewrite Hrq. intros e e' ->.
      destruct (nonNil e); [now apply sim_ret | exact IH]. }
    destruct (String.eqb c Connectivity); [now apply Hinstall|].
    destruct (String.eqb c ServiceDiscovery); [now apply Hinstall|].
    destruct (String.eqb c Globalnet); [now apply Hinstall|].
    exact IH.
Qed.

Lemma sim_Ensure (componentArr : list string) (crds : bool)
    (namespace : string) :
  sim eq (Ensure cp componentArr crds namespace)
    (Ensure (lenient cp) componentArr crds namespace).
Proof.
  unfold Ensure, CreateNewBrokerNamespace.
  eapply sim_bind with (R := eq).
  { destruct crds; [apply sim_ensureCRDs | now apply sim_ret]. }
  intros e0 e0' <-. destruct (nonNil e0); [now apply sim_ret|].
  eapply sim_bind; [apply sim_call|]. intros e e' He. cbn in He.
  eapply sim_guard with (failure := fun err => Wrap err _);
    [exact He|].
  eapply sim_bind; [apply sim_admin|]. intros e1 e1' <-.
  destruct (nonNil e1); [now apply sim_ret|].
  eapply sim_bind; [apply sim_cluster|]. intros e2 e2' <-.
  destruct (nonNil e2); [now apply sim_ret|].
  eapply sim_bind; [apply sim_WaitForClientToken|]. intros r r' <-.
  destruct r as [secret err]. now apply sim_ret.
Qed.

Lemma sim_CreateSAForCluster (clusterID namespace : string) :
  sim eq (CreateSAForCluster cp clusterID namespace)
    (CreateSAForCluster (lenient cp) clusterID namespace).
Proof.
  unfold CreateSAForCluster, CreateNewBrokerSA, CreateNewBrokerRoleBinding.
  cbv zeta.
  eapply sim_bind; [apply sim_call|]. intros e e' He. cbn in He.
  eapply sim_guard with (failure := fun err => (None, Wrap err _));
    [exact He|].
  eapply sim_bind; [apply sim_call|]. intros e2 e2' He2. cbn in He2.
  eapply sim_guard with (failure := fun err => (None, Wrap err _));
    [exact He2|].
  eapply sim_bind; [apply sim_WaitForClientToken|]. intros r r' <-.
  destruct r as [clientToken err].
  destruct (nonNil err && negb (IsAlreadyExists err)); now apply sim_ret.
Qed.

(** X11. [Ensure] and [CreateSAForCluster] cannot tell an AlreadyExists
    answer from success on a namespace, service-account or role-binding
    create, nor on the create-or-update of the cluster role: against a
    control plane that answers success wherever the given one answers
    AlreadyExists to these requests, they return the same result and leave
    the same world. *)
Theorem AlreadyExists_is_as_good_as_success (componentArr : list string)
    (crds : bool) (clusterID namespace : string) (w : W) :
  (fst (Ensure (lenient cp) componentArr crds namespace (start w))
   = fst (Ensure cp componentArr crds namespace (start w))
   /\ world (snd (Ensure (lenient cp) componentArr crds namespace (start w)))
      = world (snd (Ensure cp componentArr crds namespace (start w))))
  /\ (fst (CreateSAForCluster (lenient cp) clusterID namespace (start w))
      = fst (CreateSAForCluster cp clusterID namespace (start w))
      /\ world (snd (CreateSAForCluster (lenient cp) clusterID namespace
                       (start w)))
         = world (snd (CreateSAForCluster cp clusterID namespace (start w)))).
Proof.
  split.
  - destruct (sim_Ensure componentArr crds namespace (start w) (start w)
                eq_refl) as [Hr Hw].
    split; symmetry; assumption.
  - destruct (sim_CreateSAForCluster clusterID namespace (start w) (start w)
                eq_refl) as [Hr Hw].
    split; symmetry; assumption.
Qed.

End Lenient.

(** ** The further statements at work on the small control plane *)

Lemma Ensure_error_is_last_answer_witness :
  let forbidden := StatusError StatusReasonForbidden "forbidden" in
  let r := Ensure fake (names := upstream) ["connectivity"] true "broker-ns"
             (start (faulty [(NamespaceCreate "broker-ns", forbidden)])) in
  fst r = Some (withMessage forbidden "error creating the broker namespace")
  /\ last (log (snd r)) (Slept 0)
     = Called (NamespaceCreate "broker-ns") (Some forbidden).
Proof.
  intros forbidden r.
  destruct (Ensure_error_is_last_answer fake (names := upstream)
              ["connectivity"] true "broker-ns"
              (faulty [(NamespaceCreate "broker-ns", forbidden)])
              (withMessage forbidden "error creating the broker namespace")
              eq_refl)
    as [(rq & e & message & Hlast & _)|(secret & Hlast & _)].
  - split; reflexivity.
  - discriminate Hlast.
Defined.

Lemma Ensure_waits_after_clean_provisioning_witness :
  fatal (Some (StatusError StatusReasonAlreadyExists "already exists")) = false.
Proof.
  refine (proj1 (Ensure_waits_after_clean_provisioning fake (names := upstream)
                   [] false "broker-ns"
                   (mkFake [NamespaceCreate "broker-ns"] [] 1
                      (StatusError StatusReasonNotFound "not found") 0)
                   _ (NamespaceCreate "broker-ns")
                   (Some (StatusError StatusReasonAlreadyExists
                            "already exists")) _)).
  - vm_compute. discriminate.
  - vm_compute. left. reflexivity.
Defined.

Lemma CreateSAForCluster_returns_found_secret_witness :
  fst (CreateSAForCluster fake (names := upstream) "east" "broker-ns"
         (start (fresh 3)))
  = (Some (mkSecret "broker-ns" "cluster-east-token-x"), None).
Proof.
  refine (CreateSAForCluster_returns_found_secret fake (names := upstream)
            "east" "broker-ns" (fresh 3) "broker-ns" "cluster-east"
            (Some (mkSecret "broker-ns" "cluster-east-token-x")) _).
  vm_compute. do 8 right. left. reflexivity.
Defined.

Lemma CreateSAForCluster_wraps_wait_error_witness :
  let r := CreateSAForCluster fake (names := upstream) "east" "broker-ns"
             (start (fresh 10)) in
  fst r = (None,
           Some (withMessage (StatusError StatusReasonNotFound "not found")
                   "error getting cluster sa token"))
  /\ lookups (log (snd r)) = 10%nat.
Proof.
  exact (CreateSAForCluster_wraps_wait_error fake (names := upstream)
           "east" "broker-ns" (fresh 10) "broker-ns" "cluster-east" None
           (StatusError StatusReasonNotFound "not found") eq_refl eq_refl).
Defined.

Lemma WaitForClientToken_sleep_bounds_witness :
  let evs := log (snd (WaitForClientToken steady "cluster-east" "broker-ns"
                         (start (fresh 10)))) in
  (slept evs <= 207989017600)%Z /\ (103994508800 <= slept evs)%Z.
Proof.
  intros evs.
  assert (Hdraws : drawsInUnit steady).
  { intros w. cbn. unfold Qle. cbn. split; lia. }
  destruct (WaitForClientToken_sleep_bounds steady Hdraws "cluster-east"
              "broker-ns" (fresh 10)) as (Hup & _ & Hlow).
  split; [exact Hup|]. apply Hlow.
  intros secret Hin. vm_compute in Hin.
  repeat (destruct Hin as [Hin|Hin]; [discriminate Hin|]). exact Hin.
Defined.
